(** * ask-DB: the SQL safety validator, the paginated executor, the
    template matcher, the progress tracker and the two generation handlers

    A shallow embedding of the Go sources
      backend/internal/executor/executor.go   (package executor)
      backend/internal/db/oracle.go           (package db)
      backend/internal/templates/service.go   (package templates)
      internal/progress                       (package progress)
      internal/api handlers                   (package api)
    together with the properties the specification states about them.

    Go strings are byte strings; they are modelled by [string] (a list of
    8-bit characters).  [strings.ToUpper], [strings.ToLower],
    [strings.TrimSpace] and [strings.EqualFold] are modelled on their ASCII
    range, which is where every literal of the sources lives. *)

From Stdlib Require Import ZArith Ascii String List Bool Lia.
From stdpp Require Import base option list gmap strings pretty.

Local Open Scope Z_scope.

(** ** Package strings (Go standard library), byte level *)

Module GoStr.

Definition bytes (s : string) : list ascii := String.list_ascii_of_string s.
Definition of_bytes (l : list ascii) : string := String.string_of_list_ascii l.

Definition code (c : ascii) : N := N_of_ascii c.

Definition in_range (lo hi : N) (c : ascii) : bool :=
  (N.leb lo (code c) && N.leb (code c) hi)%bool.

Definition is_lower (c : ascii) : bool := in_range 97 122 c.
Definition is_upper (c : ascii) : bool := in_range 65 90 c.
Definition is_digit (c : ascii) : bool := in_range 48 57 c.

(** unicode.IsSpace on the ASCII range: tab, LF, VT, FF, CR and space. *)
Definition is_space (c : ascii) : bool :=
  (in_range 9 13 c || N.eqb (code c) 32)%bool.

Definition upper_byte (c : ascii) : ascii :=
  if is_lower c then ascii_of_N (code c - 32) else c.

Definition lower_byte (c : ascii) : ascii :=
  if is_upper c then ascii_of_N (code c + 32) else c.

Definition ToUpper (s : string) : string := of_bytes (map upper_byte (bytes s)).
Definition ToLower (s : string) : string := of_bytes (map lower_byte (bytes s)).

Fixpoint trim_left (l : list ascii) : list ascii :=
  match l with
  | c :: l' => if is_space c then trim_left l' else l
  | [] => []
  end.

Definition trim_right (l : list ascii) : list ascii := rev (trim_left (rev l)).

Definition TrimSpace (s : string) : string :=
  of_bytes (trim_right (trim_left (bytes s))).

Fixpoint has_prefix (l p : list ascii) : bool :=
  match p, l with
  | [], _ => true
  | c :: p', d :: l' => (Ascii.eqb c d && has_prefix l' p')%bool
  | _ :: _, [] => false
  end.

Definition HasPrefix (s prefix : string) : bool :=
  has_prefix (bytes s) (bytes prefix).

Definition HasSuffix (s suffix : string) : bool :=
  has_prefix (rev (bytes s)) (rev (bytes suffix)).

Fixpoint contains (l p : list ascii) : bool :=
  (has_prefix l p ||
   match l with
   | [] => false
   | _ :: l' => contains l' p
   end)%bool.

Definition Contains (s substr : string) : bool :=
  contains (bytes s) (bytes substr).

(** strings.LastIndex: the byte index of the last occurrence, or -1. *)
Fixpoint last_index_from (i : Z) (l p : list ascii) (found : Z) : Z :=
  let found' := if has_prefix l p then i else found in
  match l with
  | [] => found'
  | _ :: l' => last_index_from (i + 1) l' p found'
  end.

Definition LastIndex (s substr : string) : Z :=
  last_index_from 0 (bytes s) (bytes substr) (-1).

Definition len (s : string) : Z := Z.of_nat (String.length s).

(** The slice expression [s[lo:hi]], for [0 <= lo <= hi <= len s]. *)
Definition slice (s : string) (lo hi : Z) : string :=
  of_bytes (take (Z.to_nat (hi - lo)) (drop (Z.to_nat lo) (bytes s))).

Definition TrimSuffix (s suffix : string) : string :=
  if HasSuffix s suffix then slice s 0 (len s - len suffix) else s.

Definition EqualFold (s t : string) : bool :=
  String.eqb (ToLower s) (ToLower t).

End GoStr.

(** ** Package regexp (Go standard library)

    The patterns of the sources, as syntax trees, and the leftmost-first
    matching of Go's regexp: the match a backtracking search finds first.
    Perl classes are ASCII-only in Go ([\s] is tab, LF, FF, CR, space; [\b]
    is an ASCII word boundary), [^] and [$] are the ends of the text and
    [.] excludes the line feed, since no pattern sets a flag. *)

Module Regexp.

Inductive cls_item : Type :=
| CSpace                 (* \s *)
| CChar (c : ascii).

Inductive regex : Type :=
| Lit (c : ascii)
| Cls (items : list cls_item)
| Dot
| Bol                    (* ^ *)
| Eol                    (* $ *)
| WordB                  (* \b *)
| Eps
| Cat (r1 r2 : regex)
| Alt (r1 r2 : regex)
| Star (greedy : bool) (r : regex)
| Opt (r : regex).

(** A literal string as a concatenation of literals. *)
Fixpoint lits (l : list ascii) : regex :=
  match l with
  | [] => Eps
  | [c] => Lit c
  | c :: l' => Cat (Lit c) (lits l')
  end.

Definition Str (s : string) : regex := lits (GoStr.bytes s).

Definition re_space (c : ascii) : bool :=
  let n := GoStr.code c in
  (N.eqb n 9 || N.eqb n 10 || N.eqb n 12 || N.eqb n 13 || N.eqb n 32)%bool.

Definition is_word (c : ascii) : bool :=
  (GoStr.is_lower c || GoStr.is_upper c || GoStr.is_digit c
   || Ascii.eqb c "_"%char)%bool.

Definition item_matches (c : ascii) (it : cls_item) : bool :=
  match it with
  | CSpace => re_space c
  | CChar d => Ascii.eqb c d
  end.

Definition cls_matches (items : list cls_item) (c : ascii) : bool :=
  existsb (item_matches c) items.

Definition word_opt (o : option ascii) : bool :=
  match o with
  | Some c => is_word c
  | None => false
  end.

Section Matcher.
Context {A : Type}.

(** [run r prev s k]: match [r] at the head of [s], [prev] being the byte
    before it, and hand the rest to the continuation [k]; alternatives are
    tried in the order of a backtracking search. *)
Fixpoint run (r : regex) (prev : option ascii) (s : list ascii)
    (k : option ascii -> list ascii -> option A) {struct r} : option A :=
  match r with
  | Lit c =>
      match s with
      | x :: s' => if Ascii.eqb x c then k (Some x) s' else None
      | [] => None
      end
  | Cls items =>
      match s with
      | x :: s' => if cls_matches items x then k (Some x) s' else None
      | [] => None
      end
  | Dot =>
      match s with
      | x :: s' => if Ascii.eqb x "010"%char then None else k (Some x) s'
      | [] => None
      end
  | Bol => match prev with None => k prev s | Some _ => None end
  | Eol => match s with [] => k prev s | _ :: _ => None end
  | WordB =>
      if xorb (word_opt prev) (word_opt (head s)) then k prev s else None
  | Eps => k prev s
  | Cat r1 r2 => run r1 prev s (fun p' s' => run r2 p' s' k)
  | Alt r1 r2 =>
      match run r1 prev s k with
      | Some v => Some v
      | None => run r2 prev s k
      end
  | Opt r1 =>
      match run r1 prev s k with
      | Some v => Some v
      | None => k prev s
      end
  | Star greedy r1 =>
      (fix loop (n : nat) (prev : option ascii) (s : list ascii)
           {struct n} : option A :=
         let again (_ : unit) :=
           match n with
           | O => None
           | S n' =>
               run r1 prev s (fun p' s' =>
                 if (length s' <? length s)%nat then loop n' p' s' else None)
           end in
         if greedy then
           match again tt with
           | Some v => Some v
           | None => k prev s
           end
         else
           match k prev s with
           | Some v => Some v
           | None => again tt
           end) (length s) prev s
  end.
End Matcher.

(** The rest of the text after the first match starting exactly here. *)
Definition match_here (r : regex) (prev : option ascii) (s : list ascii)
  : option (list ascii) :=
  run r prev s (fun _ rest => Some rest).

Fixpoint search (r : regex) (prev : option ascii) (s : list ascii) : bool :=
  match match_here r prev s with
  | Some _ => true
  | None =>
      match s with
      | [] => false
      | c :: s' => search r (Some c) s'
      end
  end.

(** Regexp.MatchString: does the text contain a match? *)
Definition MatchString (r : regex) (s : string) : bool :=
  search r None (GoStr.bytes s).

(** Regexp.ReplaceAllString with the empty replacement: the successive
    leftmost matches are cut out; [skip] counts the bytes of the current
    match still to drop. *)
Fixpoint delete_matches (r : regex) (prev : option ascii) (s : list ascii)
    (skip : nat) : list ascii :=
  match skip with
  | S k =>
      match s with
      | [] => []
      | c :: s' => delete_matches r (Some c) s' k
      end
  | O =>
      match s with
      | [] => []
      | c :: s' =>
          match match_here r prev s with
          | Some rest =>
              match (length s - length rest)%nat with
              | O => c :: delete_matches r (Some c) s' 0
              | S k => delete_matches r (Some c) s' k
              end
          | None => c :: delete_matches r (Some c) s' 0
          end
      end
  end.

Definition ReplaceAllString_empty (r : regex) (s : string) : string :=
  GoStr.of_bytes (delete_matches r None (GoStr.bytes s) 0).



End Regexp.

(** ** Go's int: 64-bit two's complement *)

Module GoInt.


(** The value an arithmetic result has once stored in an [int]. *)
Definition wrap (z : Z) : Z := (z + 2 ^ 63) mod 2 ^ 64 - 2 ^ 63.

Definition add (a b : Z) : Z := wrap (a + b).
Definition sub (a b : Z) : Z := wrap (a - b).
Definition mul (a b : Z) : Z := wrap (a * b).

End GoInt.

(** ** Package models (models.go) *)

Module Models.

(** A cell of a result row, an [interface{}] filled by the driver. *)
Inductive value : Type :=
| VNil
| VStr (s : string)
| VInt (z : Z).

Definition is_nil (v : value) : bool :=
  match v with
  | VNil => true
  | _ => false
  end.

Record SQLExecuteRequest : Type := {
  req_SQL : string;
  req_Timeout : Z;
  req_Page : Z;
  req_PageSize : Z
}.

Record SQLExecuteResponse : Type := {
  Success : bool;
  Columns : list string;
  Rows : list (list value);
  RowCount : Z;
  ExecTime : Z;
  Error : string;
  Page : Z;
  PageSize : Z;
  HasMore : bool;
  MaskedColumns : list string
}.

(** The response literal [{Success: false, Error: msg}]; the other fields
    keep their zero values. *)
Definition failure (msg : string) : SQLExecuteResponse :=
  {| Success := false; Columns := []; Rows := []; RowCount := 0;
     ExecTime := 0; Error := msg; Page := 0; PageSize := 0;
     HasMore := false; MaskedColumns := [] |}.

Definition set_paging (page pageSize : Z) (r : SQLExecuteResponse)
  : SQLExecuteResponse :=
  {| Success := Success r; Columns := Columns r; Rows := Rows r;
     RowCount := RowCount r; ExecTime := ExecTime r; Error := Error r;
     Page := page; PageSize := pageSize;
     HasMore := HasMore r; MaskedColumns := MaskedColumns r |}.

Definition set_masked (rows : list (list value)) (masked : list string)
    (r : SQLExecuteResponse) : SQLExecuteResponse :=
  {| Success := Success r; Columns := Columns r; Rows := rows;
     RowCount := RowCount r; ExecTime := ExecTime r; Error := Error r;
     Page := Page r; PageSize := PageSize r;
     HasMore := HasMore r; MaskedColumns := masked |}.

Record SQLGenerateRequest : Type := {
  Query : string;
  Context_ : string;
  TableNames : string;
  SessionID : string;
  RequestID : string
}.

Record SQLGenerateResponse : Type := {
  SQL : string;
  Reasoning : string;
  Source : string;
  TemplateID : string;
  UsedMemory : bool;
  resp_RequestID : string
}.

End Models.

(** ** Package db: the paginated query of the Oracle client (oracle.go) *)

Module Db.
Import GoStr Models.

(** What a call of the database/sql driver or of a collaborator gives back:
    a value, or an error with its message. *)
Inductive outcome (A : Type) : Type :=
| Done (a : A)
| Failed (msg : string).
Arguments Done {A} a.
Arguments Failed {A} msg.

(** A [*sql.Rows]: the result of [Columns()], the rows for which [Next()]
    says true, each with what [Scan] does on it, and the final [Err()]. *)
Record Rows_ : Type := {
  rows_Columns : outcome (list string);
  rows_Next : list (outcome (list value));
  rows_Err : option string
}.

(** The client: [QueryContext] of its [*sql.DB], the outcome of
    lookupColumnComments (column-comment cache and catalog), and the
    milliseconds the clock measures for a call. *)
Record OracleClient : Type := {
  QueryContext : string -> list Z -> outcome Rows_;
  lookupColumnComments : list string -> outcome (gmap string string);
  elapsed : Z
}.

Definition decorate_one (commentMap : gmap string string) (col : string)
  : string :=
  let key := ToUpper (TrimSpace col) in
  match commentMap !! key with
  | Some comment =>
      if String.eqb comment "" then col
      else comment +:+ "(" +:+ col +:+ ")"
  | None => col
  end.

Definition decorateColumns (c : OracleClient) (columns : list string)
  : list string :=
  match columns with
  | [] => columns
  | _ :: _ =>
      match lookupColumnComments c columns with
      | Failed _ => columns
      | Done commentMap => map (decorate_one commentMap) columns
      end
  end.

(** The scanning loop of ExecuteQuery: all rows, or the first Scan error. *)
Fixpoint scan_rows (next : list (outcome (list value)))
  : outcome (list (list value)) :=
  match next with
  | [] => Done []
  | Failed msg :: _ => Failed msg
  | Done values :: rest =>
      match scan_rows rest with
      | Done result => Done (values :: result)
      | Failed msg => Failed msg
      end
  end.

(** ExecuteQuery executes a SELECT query and returns the results. *)
Definition ExecuteQuery (c : OracleClient) (query : string)
  : option SQLExecuteResponse * option string :=
  match QueryContext c query [] with
  | Failed msg => (Some (failure msg), None)
  | Done rows =>
      match rows_Columns rows with
      | Failed msg => (Some (failure msg), None)
      | Done columns =>
          let columns := decorateColumns c columns in
          match scan_rows (rows_Next rows) with
          | Failed msg => (Some (failure msg), None)
          | Done result =>
              (Some {| Success := true; Columns := columns; Rows := result;
                       RowCount := Z.of_nat (length result);
                       ExecTime := elapsed c; Error := "";
                       Page := 0; PageSize := 0; HasMore := false;
                       MaskedColumns := [] |},
               rows_Err rows)
          end
      end
  end.

(** The first index whose column is named RNUM in any letter case, or -1. *)
Fixpoint find_rnum (idx : Z) (columns : list string) : Z :=
  match columns with
  | [] => -1
  | col :: rest =>
      if EqualFold col "RNUM" then idx else find_rnum (idx + 1) rest
  end.

(** [append(xs[:i], xs[i+1:]...)] *)
Definition remove_at {A : Type} (i : Z) (xs : list A) : list A :=
  take (Z.to_nat i) xs ++ drop (Z.to_nat (i + 1)) xs.

(** [if rowNumIdx >= 0 && rowNumIdx < len(xs) { xs = append(...) }] *)
Definition strip_rnum {A : Type} (rowNumIdx : Z) (xs : list A) : list A :=
  if ((0 <=? rowNumIdx) && (rowNumIdx <? Z.of_nat (length xs)))%bool
  then remove_at rowNumIdx xs
  else xs.

Fixpoint scan_rows_range (rowNumIdx : Z) (next : list (outcome (list value)))
  : outcome (list (list value)) :=
  match next with
  | [] => Done []
  | Failed msg :: _ => Failed msg
  | Done values :: rest =>
      match scan_rows_range rowNumIdx rest with
      | Done resultRows => Done (strip_rnum rowNumIdx values :: resultRows)
      | Failed msg => Failed msg
      end
  end.

Definition nl : string := String "010"%char "".

(** The statement the caller's query is wrapped in. *)
Definition wrap_query (sanitized : string) : string :=
  "SELECT * FROM (" +:+ nl +:+
  "    SELECT inner_query.*, ROWNUM rnum FROM (" +:+ sanitized +:+
  ") inner_query WHERE ROWNUM <= :1" +:+ nl +:+
  ") WHERE rnum > :2".

(** ExecuteQueryRange executes a query with pagination.  The second
    component is the returned error, [None] for nil. *)
Definition ExecuteQueryRange (c : OracleClient) (query : string)
    (offset limit : Z) : option SQLExecuteResponse * option string :=
  if limit <=? 0 then ExecuteQuery c query
  else
    let sanitized := TrimSuffix (TrimSpace query) ";" in
    if String.eqb sanitized "" then (Some (failure "query cannot be empty"), None)
    else
      let offset := if offset <? 0 then 0 else offset in
      let maxRow := GoInt.add (GoInt.add offset limit) 1 in
      let wrapped := wrap_query sanitized in
      match QueryContext c wrapped [maxRow; offset] with
      | Failed msg => (Some (failure msg), None)
      | Done rows =>
          match rows_Columns rows with
          | Failed msg => (Some (failure msg), None)
          | Done columns =>
              let rowNumIdx := find_rnum 0 columns in
              match scan_rows_range rowNumIdx (rows_Next rows) with
              | Failed msg => (Some (failure msg), None)
              | Done resultRows =>
                  let hasMore := limit <? Z.of_nat (length resultRows) in
                  let resultRows :=
                    if hasMore then take (Z.to_nat limit) resultRows
                    else resultRows in
                  let columns := strip_rnum rowNumIdx columns in
                  let columns := decorateColumns c columns in
                  (Some {| Success := true; Columns := columns;
                           Rows := resultRows;
                           RowCount := Z.of_nat (length resultRows);
                           ExecTime := elapsed c; Error := "";
                           Page := 0; PageSize := 0; HasMore := hasMore;
                           MaskedColumns := [] |},
                   rows_Err rows)
              end
          end
      end.

End Db.

(** ** Package executor: the SQL safety validator (executor.go) *)

Module Executor.
Import GoStr Regexp Models.

(** isSelectQuery checks if the query is a SELECT statement. *)
Definition isSelectQuery (sql : string) : bool :=
  let normalized := ToUpper (TrimSpace sql) in
  if HasPrefix normalized "WITH " then Contains normalized "SELECT"
  else (HasPrefix normalized "SELECT" || HasPrefix normalized "(")%bool.

Definition dangerous : list string :=
  [ "INSERT"; "UPDATE"; "DELETE"; "DROP"; "CREATE"; "ALTER";
    "TRUNCATE"; "GRANT"; "REVOKE"; "EXEC"; "EXECUTE";
    "PRAGMA"; "VACUUM"; "ANALYZE"; "ATTACH"; "DETACH" ].

(** The class [[\s\(;]] on either side of a keyword. *)
Definition delimiters : list cls_item :=
  [CSpace; CChar "("%char; CChar ";"%char].

Definition boundary : regex := Cls delimiters.

(** The pattern [(?:^|[\s\(;])(KEYWORD)(?:[\s\(;]|$)]. *)
Definition keyword_pattern (keyword : string) : regex :=
  Cat (Alt Bol boundary) (Cat (Str keyword) (Alt boundary Eol)).

(** hasDangerousKeywords checks for dangerous SQL keywords. *)
Definition hasDangerousKeywords (sql : string) : bool :=
  let upperSQL := ToUpper sql in
  existsb (fun keyword => MatchString (keyword_pattern keyword) upperSQL)
          dangerous.

(** hasMultipleRoots: SELECT keywords outside parentheses, counted over the
    bytes of the upper-cased text. *)
Fixpoint roots_loop (l : list ascii) (parenDepth selectCount : Z) : Z :=
  match l with
  | [] => selectCount
  | c :: l' =>
      if Ascii.eqb c "("%char then roots_loop l' (parenDepth + 1) selectCount
      else if Ascii.eqb c ")"%char then roots_loop l' (parenDepth - 1) selectCount
      else if ((parenDepth =? 0) && has_prefix l (bytes "SELECT"))%bool
           then roots_loop l' parenDepth (selectCount + 1)
      else roots_loop l' parenDepth selectCount
  end.

Definition hasMultipleRoots (sql : string) : bool :=
  let upperSQL := ToUpper sql in
  1 <? roots_loop (bytes upperSQL) 0 0.

(** A pattern of the injection table: its source text and its syntax tree. *)
Record pattern : Type := { src : string; re : regex }.

Definition any : regex := Star true Dot.
Definition spaces : regex := Star true (Cls [CSpace]).
Definition quote : regex := Lit "'"%char.

(** The double quote character, code 34. *)
Definition dquote : ascii := "034"%char.

Definition patterns : list pattern :=
  [ {| src := "'.*--"; re := Cat quote (Cat any (Str "--")) |};
    {| src := "'.*;"; re := Cat quote (Cat any (Str ";")) |};
    {| src := "(\bOR\b|\bAND\b).*'?\s*=\s*'";
       re := Cat (Alt (Cat WordB (Cat (Str "OR") WordB))
                      (Cat WordB (Cat (Str "AND") WordB)))
               (Cat any (Cat (Opt quote)
                 (Cat spaces (Cat (Str "=") (Cat spaces quote))))) |};
    {| src := "UNION.*SELECT"; re := Cat (Str "UNION") (Cat any (Str "SELECT")) |};
    {| src := "'.*OR.*'='";
       re := Cat quote (Cat any (Cat (Str "OR") (Cat any (Str "'='")))) |};
    {| src := String dquote ("\s*OR\s*" +:+ String dquote "");
       re := Cat (Lit dquote)
               (Cat spaces (Cat (Str "OR") (Cat spaces (Lit dquote)))) |};
    {| src := "/\*.*\*/"; re := Cat (Str "/*") (Cat any (Str "*/")) |};
    {| src := "xp_"; re := Str "xp_" |};
    {| src := "sp_"; re := Str "sp_" |} ].

(** The loop of hasSQLInjectionPatterns.  A matching pattern either takes
    the [continue] of the UNION whitelist or falls out of the [if]; both
    ways the loop goes on to the next pattern, and the function ends with
    [return false]. *)
Fixpoint injection_loop (sql upperSQL : string) (ps : list pattern) : bool :=
  match ps with
  | [] => false
  | p :: rest =>
      if MatchString (re p) upperSQL then
        if (String.eqb (src p) "UNION.*SELECT" && negb (hasMultipleRoots sql))%bool
        then injection_loop sql upperSQL rest
        else injection_loop sql upperSQL rest
      else injection_loop sql upperSQL rest
  end.

(** hasSQLInjectionPatterns checks for common SQL injection patterns. *)
Definition hasSQLInjectionPatterns (sql : string) : bool :=
  let upperSQL := ToUpper sql in
  injection_loop sql upperSQL patterns.

(** The comment pattern [/\*.*?\*/|--.*?$] of hasStackedQueries. *)
Definition commentRegex : regex :=
  Alt (Cat (Str "/*") (Cat (Star false Dot) (Str "*/")))
      (Cat (Str "--") (Cat (Star false Dot) Eol)).

(** The state of the scanning loop of hasStackedQueries. *)
Record scan : Type := {
  inString : bool;
  stringChar : ascii;
  semicolonCount : Z
}.

Definition is_quote (c : ascii) : bool :=
  (Ascii.eqb c "'"%char || Ascii.eqb c dquote)%bool.

(** One iteration: [before] is [cleaned[i-1]], absent when [i == 0]. *)
Definition scan_step (before : option ascii) (char : ascii) (st : scan) : scan :=
  let unescaped :=
    match before with
    | None => true
    | Some b => negb (Ascii.eqb b "\"%char)
    end in
  let st1 :=
    if (is_quote char && unescaped)%bool then
      if negb (inString st) then
        {| inString := true; stringChar := char;
           semicolonCount := semicolonCount st |}
      else if Ascii.eqb char (stringChar st) then
        {| inString := false; stringChar := stringChar st;
           semicolonCount := semicolonCount st |}
      else st
    else st in
  if (Ascii.eqb char ";"%char && negb (inString st1))%bool then
    {| inString := inString st1; stringChar := stringChar st1;
       semicolonCount := semicolonCount st1 + 1 |}
  else st1.

Fixpoint scan_loop (before : option ascii) (l : list ascii) (st : scan) : scan :=
  match l with
  | [] => st
  | char :: l' => scan_loop (Some char) l' (scan_step before char st)
  end.

(** hasStackedQueries checks for stacked/batched queries. *)
Definition hasStackedQueries (sql : string) : bool :=
  let cleaned := ReplaceAllString_empty commentRegex sql in
  let st := scan_loop None (bytes cleaned)
              {| inString := false; stringChar := zero; semicolonCount := 0 |} in
  1 <? semicolonCount st.

(** ValidateSQL performs security checks on SQL; [None] is the nil error. *)
Definition ValidateSQL (sql : string) : option string :=
  if String.eqb sql "" then Some "SQL query cannot be empty"
  else
    let sql := TrimSpace sql in
    if negb (isSelectQuery sql) then Some "only SELECT queries are allowed"
    else if hasDangerousKeywords sql then Some "query contains forbidden keywords"
    else if hasSQLInjectionPatterns sql then Some "potential SQL injection detected"
    else if hasStackedQueries sql then Some "stacked queries are not allowed"
    else None.

(** *** The executor proper *)

Record Config : Type := {
  SQLDefaultPageSize : Z;
  SQLMaxPageSize : Z;
  SensitiveColumns : list string
}.

Record SQLExecutor : Type := {
  dbClient : Db.OracleClient;
  defaultPageSize : Z;
  maxPageSize : Z;
  sensitiveCols : gset string
}.

(** The loop of New over cfg.SensitiveColumns. *)
Fixpoint sensitive_set (cols : list string) (acc : gset string) : gset string :=
  match cols with
  | [] => acc
  | col :: rest =>
      let trimmed := TrimSpace col in
      if String.eqb trimmed "" then sensitive_set rest acc
      else sensitive_set rest ({[ ToUpper trimmed ]} ∪ acc)
  end.

(** New; [cfg] is [None] for a nil configuration. *)
Definition New (dbClient : Db.OracleClient) (cfg : option Config) : SQLExecutor :=
  let d0 := match cfg with
            | Some c => if 0 <? SQLDefaultPageSize c then SQLDefaultPageSize c else 0
            | None => 0
            end in
  let m0 := match cfg with
            | Some c => if 0 <? SQLMaxPageSize c then SQLMaxPageSize c else 0
            | None => 0
            end in
  let s0 := match cfg with
            | Some c => sensitive_set (SensitiveColumns c) ∅
            | None => ∅
            end in
  let d1 := if d0 <=? 0 then 50 else d0 in
  let m1 := if m0 <=? 0 then 200 else m0 in
  let m2 := if m1 <? d1 then d1 else m1 in
  {| dbClient := dbClient; defaultPageSize := d1; maxPageSize := m2;
     sensitiveCols := s0 |}.

Definition maskingKeys (col : string) : list string :=
  let col := TrimSpace col in
  let upper := ToUpper col in
  if negb (HasSuffix col ")") then [upper]
  else
    let openIdx := LastIndex col "(" in
    if ((openIdx =? -1) || (len col - 1 <=? openIdx))%bool then [upper]
    else
      let original := TrimSpace (slice col (openIdx + 1) (len col - 1)) in
      if String.eqb original "" then [upper]
      else [upper; ToUpper original].

(** The inner loop over the keys of a column: is one of them configured? *)
Definition is_sensitive (sens : gset string) (col : string) : bool :=
  existsb (fun key => bool_decide (key ∈ sens)) (maskingKeys col).

(** The first loop of applyMasking: the indexes and names of the columns
    to mask, in column order. *)
Fixpoint collect_masked (sens : gset string) (idx : nat) (columns : list string)
  : list nat * list string :=
  match columns with
  | [] => ([], [])
  | col :: rest =>
      let '(indexes, masked) := collect_masked sens (S idx) rest in
      if is_sensitive sens col then (idx :: indexes, col :: masked)
      else (indexes, masked)
  end.

Definition mask_token : value := VStr "***".

(** [if idx < len(row) && row[idx] != nil { row[idx] = "***" }] *)
Definition mask_cell (row : list value) (idx : nat) : list value :=
  match row !! idx with
  | Some v => if is_nil v then row else <[ idx := mask_token ]> row
  | None => row
  end.

Definition mask_row (indexes : list nat) (row : list value) : list value :=
  fold_left mask_cell indexes row.

Definition applyMasking (e : SQLExecutor) (resp : SQLExecuteResponse)
  : SQLExecuteResponse :=
  if (negb (Success resp) || (size (sensitiveCols e) =? 0)%nat)%bool then resp
  else
    let '(indexes, masked) := collect_masked (sensitiveCols e) 0 (Columns resp) in
    match indexes with
    | [] => resp
    | _ :: _ => set_masked (map (mask_row indexes) (Rows resp)) masked resp
    end.

(** ExecuteSQL executes a SQL query with safety checks.  The error of
    ExecuteQueryRange is logged and dropped: the function ends with
    [return result, nil].  The deadline put on the context only bears on
    what the driver answers, which the client's QueryContext stands for. *)
Definition ExecuteSQL (e : SQLExecutor) (req : SQLExecuteRequest)
  : option SQLExecuteResponse * option string :=
  let sql := req_SQL req in
  match ValidateSQL sql with
  | Some reason => (Some (failure reason), None)
  | None =>
      let page := if req_Page req <=? 0 then 1 else req_Page req in
      let pageSize :=
        if req_PageSize req <=? 0 then defaultPageSize e else req_PageSize req in
      let pageSize :=
        if maxPageSize e <? pageSize then maxPageSize e else pageSize in
      let offset := GoInt.mul (GoInt.sub page 1) pageSize in
      let '(result, _) := Db.ExecuteQueryRange (dbClient e) sql offset pageSize in
      (option_map (fun r => applyMasking e (set_paging page pageSize r)) result,
       None)
  end.






End Executor.


(** ** Package templates: keyword matching (service.go) *)

Module Templates.
Import GoStr Db.

(** Record represents a template entry persisted in DB. *)
Record Record_ : Type := {
  rec_ID : string;
  rec_Name : string;
  rec_Description : string;
  rec_Keywords : list string;
  rec_SQL : string;
  rec_Parameters : gmap string string;
  rec_OwnerID : string;
  rec_IsSystem : bool
}.

Record Template : Type := {
  ID : string;
  Name : string;
  Description : string;
  Keywords : list string;
  SQL : string;
  Parameters : gmap string string;
  OwnerID : string;
  IsSystem : bool;
  Editable : bool
}.

(** The service reads its templates with store.ListAll, a query on the
    template table. *)
Record Service : Type := { ListAll : outcome (list Record_) }.

Definition templateFromRecord (rec : Record_) (userID : string) : Template :=
  let editable := (negb (rec_IsSystem rec) && String.eqb (rec_OwnerID rec) userID)%bool in
  {| ID := rec_ID rec; Name := rec_Name rec; Description := rec_Description rec;
     Keywords := rec_Keywords rec; SQL := rec_SQL rec;
     Parameters := rec_Parameters rec; OwnerID := rec_OwnerID rec;
     IsSystem := rec_IsSystem rec; Editable := editable |}.

Fixpoint matchScore_loop (query : string) (keywords : list string) (hits : Z) : Z :=
  match keywords with
  | [] => hits
  | kw :: rest =>
      let kw := ToLower (TrimSpace kw) in
      if String.eqb kw "" then matchScore_loop query rest hits
      else if Contains query kw then matchScore_loop query rest (hits + 1)
      else matchScore_loop query rest hits
  end.

Definition matchScore (query : string) (keywords : list string) : Z :=
  matchScore_loop query keywords 0.

(** The loop of Match: the best score so far and the template holding it. *)
Fixpoint match_loop (normalized : string) (list_ : list Record_)
    (score : Z) (best : option Template) : Z * option Template :=
  match list_ with
  | [] => (score, best)
  | rec :: rest =>
      let current := matchScore normalized (rec_Keywords rec) in
      if score <? current
      then match_loop normalized rest current (Some (templateFromRecord rec ""))
      else match_loop normalized rest score best
  end.

(** Match returns the most suitable template for the user's query, [None]
    for nil. *)
Definition Match (s : Service) (query : string) : option Template :=
  match ListAll s with
  | Failed _ => None
  | Done list_ =>
      let normalized := ToLower query in
      let '(score, best) := match_loop normalized list_ 0 None in
      if score <? 2 then None else best
  end.




End Templates.

(** ** Package progress: the progress store *)

Module Progress.

Record Entry : Type := {
  ID : string;
  Stage : string;
  Message : string;
  Done : bool;
  Success : bool;
  Error : string;
  UpdatedAt : Z
}.

(** The [items] map of the store; every method runs under the store's
    lock, so a method is one step on this map.  [now] is what [time.Now()]
    reads during the call. *)
Abbreviation Store := (gmap string Entry).

Definition NewStore : Store := ∅.

Definition Init (s : Store) (now : Z) (id stage message : string) : Store :=
  <[ id := {| ID := id; Stage := stage; Message := message;
              Done := false; Success := false; Error := "";
              UpdatedAt := now |} ]> s.

Definition Update (s : Store) (now : Z) (id stage message : string) : Store :=
  match s !! id with
  | Some entry =>
      <[ id := {| ID := ID entry; Stage := stage; Message := message;
                  Done := Done entry; Success := Success entry;
                  Error := Error entry; UpdatedAt := now |} ]> s
  | None => s
  end.

Definition Complete (s : Store) (now : Z) (id message : string) : Store :=
  match s !! id with
  | Some entry =>
      <[ id := {| ID := ID entry; Stage := "completed"; Message := message;
                  Done := true; Success := true;
                  Error := Error entry; UpdatedAt := now |} ]> s
  | None => s
  end.

Definition Fail (s : Store) (now : Z) (id message : string) : Store :=
  match s !! id with
  | Some entry =>
      <[ id := {| ID := ID entry; Stage := "failed"; Message := "请求失败";
                  Done := true; Success := false;
                  Error := message; UpdatedAt := now |} ]> s
  | None => s
  end.

(** Get hands out a copy of the entry. *)
Definition Get (s : Store) (id : string) : option Entry := s !! id.


(** An operation of the tracker with its arguments, and its effect. *)
Inductive op : Type :=
| OpInit (id stage message : string)
| OpUpdate (id stage message : string)
| OpComplete (id message : string)
| OpFail (id message : string).

Definition apply (s : Store) (now : Z) (o : op) : Store :=
  match o with
  | OpInit id stage message => Init s now id stage message
  | OpUpdate id stage message => Update s now id stage message
  | OpComplete id message => Complete s now id message
  | OpFail id message => Fail s now id message
  end.

(** A run: operations paired with the clock reading of each call. *)
Definition run (s : Store) (ops : list (Z * op)) : Store :=
  fold_left (fun s '(now, o) => apply s now o) ops s.

End Progress.

(** ** Package api: the handlers *)

Module Api.
Import GoStr Db Models.

(** *** gin.Context: the keys set by the middleware and the URL query *)

(** A value stored under a key: a string, or a value of another type. *)
Inductive any : Type :=
| AStr (s : string)
| AOther.

Record Context : Type := {
  Keys : gmap string any;
  QueryValues : gmap string string
}.

Definition Get (c : Context) (key : string) : option any := Keys c !! key.

Definition GetString (c : Context) (key : string) : string :=
  match Get c key with
  | Some (AStr s) => s
  | _ => ""
  end.

(** c.Query: the value of the URL parameter, or the empty string. *)
Definition Query_ (c : Context) (key : string) : string :=
  default "" (QueryValues c !! key).

Definition getUserRole (c : Context) : string :=
  match Get c "role" with
  | Some (AStr role) => role
  | _ => ""
  end.

Definition isAdmin (c : Context) : bool := EqualFold (getUserRole c) "admin".

Definition scopedUserID (c : Context) : string :=
  let userID := GetString c "user_id" in
  if isAdmin c then
    let override := TrimSpace (Query_ c "user_id") in
    if negb (String.eqb override "") then override else userID
  else userID.

(** *** Collaborators of the generation handlers *)

(** memory.Entry *)
Record MemEntry : Type := {
  mem_Query : string;
  mem_SQL : string;
  mem_Reasoning : string;
  mem_Source : string
}.

(** The LLM client: what each of its three calls answers.  The streaming
    call also hands the chunks, in order, to its callback. *)
Record LLMClient : Type := {
  llm_GenerateSQL :
    SQLGenerateRequest -> string -> string -> outcome SQLGenerateResponse;
  llm_GenerateSQLStream :
    SQLGenerateRequest -> string -> string ->
    list string * outcome SQLGenerateResponse;
  llm_GenerateGuidance : string -> string -> string -> outcome string
}.

(** The handler.  A nil collaborator is [None] (or [false] where only its
    presence matters); llmClient is dereferenced by both handlers before
    any guidance is asked for, so it is taken as present. *)
Record APIHandler : Type := {
  templateSvc : option Templates.Service;
  memoryStore : option (string -> string -> Z -> list MemEntry);
  chatStore : bool;
  progressStore : bool;
  monitor : bool;
  llmClient : LLMClient;
  getDatabaseSchemaContext : string -> outcome string;
  uuid_New : string;
  time_Now : Z
}.

Inductive wsMessage : Type :=
| WSProgress (stage message : string)
| WSChunk (chunk : string) (done : bool)
| WSComplete (sql reasoning template_id : string) (used_memory : bool)
| WSError (error : string).

Inductive Body : Type :=
| SuccessResponse (code : Z) (message : string) (data : SQLGenerateResponse)
| ErrorResponse (code : Z) (message details : string).

(** What a handler does to the outside, in order. *)
Inductive Event : Type :=
| EvChat (userID sessionID role content : string)
| EvMemory (userID sessionID : string) (entry : MemEntry)
| EvLLMGenerate (query schemaContext memoryContext : string)
| EvLLMStream (query schemaContext memoryContext : string)
| EvLLMGuidance (query schemaContext issue : string)
| EvMetric (event : string) (success : bool) (extra : gmap string string)
| EvWS (m : wsMessage)
| EvJSON (status : Z) (body : Body)
| EvPanic.

Record State : Type := {
  progress : gmap string Progress.Entry;
  log : list Event
}.

(** *** A state monad for the handlers *)

Definition M (A : Type) : Type := State -> A * State.

Definition ret {A : Type} (a : A) : M A := fun st => (a, st).

Definition bind {A B : Type} (m : M A) (f : A -> M B) : M B :=
  fun st => let '(a, st') := m st in f a st'.

Notation "'let*' x ':=' m 'in' k" := (bind m (fun x => k))
  (at level 10, x name, m at level 100, k at level 200).
Notation "m ;> k" := (bind m (fun _ => k))
  (at level 100, k at level 200, right associativity).

Definition emit (e : Event) : M unit :=
  fun st => (tt, {| progress := progress st; log := log st ++ [e] |}).

Definition on_progress (f : gmap string Progress.Entry -> gmap string Progress.Entry)
  : M unit :=
  fun st => (tt, {| progress := f (progress st); log := log st |}).

Definition skip : M unit := ret tt.

(** *** Helper methods *)

Definition updateProgress (h : APIHandler) (requestID stage message : string)
  : M unit :=
  if (negb (progressStore h) || String.eqb requestID "")%bool then skip
  else
    on_progress (fun s =>
      match Progress.Get s requestID with
      | None => Progress.Init s (time_Now h) requestID stage message
      | Some _ => Progress.Update s (time_Now h) requestID stage message
      end).

Definition completeProgress (h : APIHandler) (requestID message : string)
  : M unit :=
  if (negb (progressStore h) || String.eqb requestID "")%bool then skip
  else on_progress (fun s => Progress.Complete s (time_Now h) requestID message).

Definition failProgress (h : APIHandler) (requestID errMsg : string) : M unit :=
  if (negb (progressStore h) || String.eqb requestID "")%bool then skip
  else on_progress (fun s => Progress.Fail s (time_Now h) requestID errMsg).

Definition saveChatMessage (h : APIHandler)
    (userID sessionID role content : string) : M unit :=
  if (negb (chatStore h) || String.eqb (TrimSpace content) "")%bool then skip
  else emit (EvChat userID sessionID role content).

Definition appendMemory (h : APIHandler) (userID sessionID query : string)
    (resp : SQLGenerateResponse) : M unit :=
  match memoryStore h with
  | None => skip
  | Some _ =>
      emit (EvMemory userID sessionID
              {| mem_Query := query; mem_SQL := SQL resp;
                 mem_Reasoning := Reasoning resp; mem_Source := Source resp |})
  end.

Definition recordMetric (h : APIHandler) (event : string) (success : bool)
    (extra : gmap string string) : M unit :=
  if negb (monitor h) then skip else emit (EvMetric event success extra).

Fixpoint buildMemoryContext_loop (idx : nat) (entries : list MemEntry) : string :=
  match entries with
  | [] => ""
  | entry :: rest =>
      pretty (S idx) +:+ ") USER: " +:+ mem_Query entry +:+ nl +:+
      "   SQL: " +:+ mem_SQL entry +:+ nl +:+
      buildMemoryContext_loop (S idx) rest
  end.

Definition buildMemoryContext (entries : list MemEntry) : string :=
  buildMemoryContext_loop 0 entries.

Definition formatSQLChatMessage (resp : SQLGenerateResponse) : string :=
  let message := TrimSpace (SQL resp) in
  let reasoning := TrimSpace (Reasoning resp) in
  let message :=
    if negb (String.eqb reasoning "") then
      (if negb (String.eqb message "") then message +:+ nl +:+ nl else message)
      +:+ "Reasoning:" +:+ nl +:+ reasoning
    else message in
  if String.eqb message "" then "生成结果已返回，请查看上方提示。" else message.

Definition needsGuidance (sql : string) : bool :=
  let sql := TrimSpace sql in
  if String.eqb sql "" then true
  else
    let upper := ToUpper sql in
    if HasPrefix upper "ERROR" then true
    else existsb (Contains upper) ["NOT FOUND"; "DOES NOT CONTAIN"; "NO TABLE"].

(** generateGuidanceResponse: [None] for nil, when the guidance call fails. *)
Definition generateGuidanceResponse (h : APIHandler) (req : SQLGenerateRequest)
    (schemaContext issue requestID : string) : M (option SQLGenerateResponse) :=
  emit (EvLLMGuidance (Query req) schemaContext issue) ;>
  match llm_GenerateGuidance (llmClient h) (Query req) schemaContext issue with
  | Failed _ => ret None
  | Done hint =>
      ret (Some {| SQL := ""; Reasoning := hint; Source := "assistant_hint";
                   TemplateID := ""; UsedMemory := false;
                   resp_RequestID := requestID |})
  end.

Definition template_response (tpl : Templates.Template) (requestID : string)
  : SQLGenerateResponse :=
  {| SQL := Templates.SQL tpl;
     Reasoning := "命中内置报表模版：" +:+ Templates.Name tpl;
     Source := "template";
     TemplateID := Templates.ID tpl;
     UsedMemory := false;
     resp_RequestID := requestID |}.

(** [resp.Source = "llm"; resp.UsedMemory = ...; resp.RequestID = ...] *)
Definition stamp_llm (resp : SQLGenerateResponse) (usedMemory : bool)
    (requestID : string) : SQLGenerateResponse :=
  {| SQL := SQL resp; Reasoning := Reasoning resp; Source := "llm";
     TemplateID := TemplateID resp; UsedMemory := usedMemory;
     resp_RequestID := requestID |}.

Definition template_hit (h : APIHandler) (query : string)
  : option Templates.Template :=
  match templateSvc h with
  | Some svc => Templates.Match svc query
  | None => None
  end.

Definition schema_or_error (h : APIHandler) (tableNames : string) : string :=
  match getDatabaseSchemaContext h tableNames with
  | Done schemaContext => schemaContext
  | Failed _ => "Error retrieving schema"
  end.

Definition recent_memory (h : APIHandler) (userID sessionID : string)
  : list MemEntry :=
  match memoryStore h with
  | Some getRecent => getRecent userID sessionID 5
  | None => []
  end.

Definition session_of (req : SQLGenerateRequest) (userID : string) : string :=
  let sessionID := TrimSpace (SessionID req) in
  if String.eqb sessionID "" then userID else sessionID.

(** *** The REST handler GenerateSQL *)

(** The body after the request is bound and the user is known; it answers
    with the [success] flag and the [metricExtra] map that the deferred
    recordMetric reads. *)
Definition GenerateSQL_body (h : APIHandler) (req : SQLGenerateRequest)
    (userID : string) : M (bool * gmap string string) :=
  let sessionID := session_of req userID in
  saveChatMessage h userID sessionID "user" (Query req) ;>
  let metricExtra : gmap string string := {[ "session_id" := sessionID ]} in
  let requestID :=
    let r := TrimSpace (RequestID req) in
    if String.eqb r "" then uuid_New h else r in
  updateProgress h requestID "received" "已收到生成请求" ;>
  match template_hit h (Query req) with
  | Some tpl =>
      updateProgress h requestID "template_matched"
        ("命中模版：" +:+ Templates.Name tpl) ;>
      let resp := template_response tpl requestID in
      appendMemory h userID sessionID (Query req) resp ;>
      completeProgress h requestID "生成完成（模版）" ;>
      saveChatMessage h userID sessionID "assistant" (formatSQLChatMessage resp) ;>
      emit (EvJSON 200 (SuccessResponse 200 "SQL generated from template" resp)) ;>
      ret (true, <[ "template_id" := Templates.ID tpl ]> metricExtra)
  | None =>
      updateProgress h requestID "prepare_context" "正在加载数据库元数据" ;>
      let schemaContext := schema_or_error h (TableNames req) in
      let memEntries := recent_memory h userID sessionID in
      let memoryContext := buildMemoryContext memEntries in
      (if (0 <? length memEntries)%nat
       then updateProgress h requestID "memory_loaded"
              ("命中 " +:+ pretty (length memEntries) +:+ " 条历史记忆")
       else skip) ;>
      updateProgress h requestID "llm_call" "LLM 正在生成 SQL" ;>
      emit (EvLLMGenerate (Query req) schemaContext memoryContext) ;>
      let accept (resp : SQLGenerateResponse) : M (bool * gmap string string) :=
        appendMemory h userID sessionID (Query req) resp ;>
        completeProgress h requestID "生成完成" ;>
        saveChatMessage h userID sessionID "assistant" (formatSQLChatMessage resp) ;>
        emit (EvJSON 200 (SuccessResponse 200 "SQL generated successfully" resp)) ;>
        ret (true, metricExtra) in
      match llm_GenerateSQL (llmClient h) req schemaContext memoryContext with
      | Failed err =>
          let* guidance := generateGuidanceResponse h req schemaContext err requestID in
          match guidance with
          | Some g =>
              saveChatMessage h userID sessionID "assistant" (Reasoning g) ;>
              emit (EvJSON 200 (SuccessResponse 200 "SQL generation guidance" g)) ;>
              ret (false, metricExtra)
          | None =>
              saveChatMessage h userID sessionID "assistant" ("生成失败：" +:+ err) ;>
              failProgress h requestID err ;>
              emit (EvJSON 500 (ErrorResponse 500 "Failed to generate SQL" err)) ;>
              ret (false, metricExtra)
          end
      | Done resp0 =>
          let resp := stamp_llm resp0 (0 <? length memEntries)%nat requestID in
          if needsGuidance (SQL resp) then
            let* guidance := generateGuidanceResponse h req schemaContext (SQL resp) requestID in
            match guidance with
            | Some g =>
                saveChatMessage h userID sessionID "assistant" (Reasoning g) ;>
                completeProgress h requestID "生成完成（提示）" ;>
                emit (EvJSON 200 (SuccessResponse 200 "SQL guidance" g)) ;>
                ret (false, metricExtra)
            | None => accept resp
            end
          else accept resp
      end
  end.

(** GenerateSQL: [bound] is what ShouldBindJSON makes of the request body. *)
Definition GenerateSQL (h : APIHandler) (bound : outcome SQLGenerateRequest)
    (c : Context) : M unit :=
  match bound with
  | Failed details =>
      emit (EvJSON 400 (ErrorResponse 400 "Invalid request" details))
  | Done req =>
      match Get c "user_id" with
      | None => emit (EvJSON 401 (ErrorResponse 401 "Unauthorized" ""))
      | Some AOther => emit EvPanic
      | Some (AStr userID) =>
          let* r := GenerateSQL_body h req userID in
          recordMetric h "generate_rest" r.1 r.2
      end
  end.

(** *** The WebSocket handler handleWebSocketGeneration *)

Definition writeWSProgress (stage message : string) : M unit :=
  emit (EvWS (WSProgress stage message)).

Definition writeWSChunk (chunk : string) (done : bool) : M unit :=
  emit (EvWS (WSChunk chunk done)).

Definition writeWSComplete (resp : SQLGenerateResponse) : M unit :=
  emit (EvWS (WSComplete (SQL resp) (Reasoning resp) (TemplateID resp)
                (UsedMemory resp))).

Definition writeWSError (message : string) : M unit :=
  emit (EvWS (WSError message)).

Fixpoint write_chunks (chunks : list string) : M unit :=
  match chunks with
  | [] => skip
  | chunk :: rest => writeWSChunk chunk false ;> write_chunks rest
  end.

Definition handleWebSocketGeneration_body (h : APIHandler) (userID : string)
    (req : SQLGenerateRequest) : M (bool * gmap string string) :=
  let sessionID := session_of req userID in
  let metricExtra : gmap string string := {[ "session_id" := sessionID ]} in
  writeWSProgress "received" "已收到生成请求" ;>
  saveChatMessage h userID sessionID "user" (Query req) ;>
  match template_hit h (Query req) with
  | Some tpl =>
      writeWSProgress "template_matched" ("命中模版：" +:+ Templates.Name tpl) ;>
      let resp := template_response tpl (RequestID req) in
      appendMemory h userID sessionID (Query req) resp ;>
      saveChatMessage h userID sessionID "assistant" (formatSQLChatMessage resp) ;>
      writeWSComplete resp ;>
      ret (true, <[ "template_id" := Templates.ID tpl ]> metricExtra)
  | None =>
      writeWSProgress "prepare_context" "正在加载数据库元数据" ;>
      let schemaContext := schema_or_error h (TableNames req) in
      let memEntries := recent_memory h userID sessionID in
      let memoryContext := buildMemoryContext memEntries in
      (if (0 <? length memEntries)%nat
       then writeWSProgress "memory_loaded"
              ("复用 " +:+ pretty (length memEntries) +:+ " 条历史")
       else skip) ;>
      writeWSProgress "llm_call" "LLM 正在生成 SQL" ;>
      emit (EvLLMStream (Query req) schemaContext memoryContext) ;>
      let '(chunks, answer) :=
        llm_GenerateSQLStream (llmClient h) req schemaContext memoryContext in
      write_chunks chunks ;>
      match answer with
      | Failed err =>
          writeWSError err ;>
          ret (false, <[ "error" := err ]> metricExtra)
      | Done resp0 =>
          let resp := stamp_llm resp0 (0 <? length memEntries)%nat (RequestID req) in
          appendMemory h userID sessionID (Query req) resp ;>
          saveChatMessage h userID sessionID "assistant" (formatSQLChatMessage resp) ;>
          writeWSComplete resp ;>
          ret (true, metricExtra)
      end
  end.

Definition handleWebSocketGeneration (h : APIHandler) (userID : string)
    (req : SQLGenerateRequest) : M unit :=
  let* r := handleWebSocketGeneration_body h userID req in
  recordMetric h "generate_ws" r.1 r.2.

(** *** What the caller finally holds *)

(** The terminal result of an exchange: the generated answer, or an error. *)
Inductive terminal : Type :=
| Answer (sql reasoning source : string) (used_memory : bool)
| TerminalError (message : string).

(** The REST sink: the body of the last JSON reply. *)
Fixpoint rest_terminal (l : list Event) (acc : option terminal) : option terminal :=
  match l with
  | [] => acc
  | EvJSON _ (SuccessResponse _ _ data) :: rest =>
      rest_terminal rest
        (Some (Answer (SQL data) (Reasoning data) (Source data) (UsedMemory data)))
  | EvJSON _ (ErrorResponse _ _ details) :: rest =>
      rest_terminal rest (Some (TerminalError details))
  | _ :: rest => rest_terminal rest acc
  end.

(** The frames written to the socket, in order. *)
Definition frames (l : list Event) : list wsMessage :=
  omap (fun e => match e with EvWS m => Some m | _ => None end) l.

(** Does the log hold a call of the LLM capability? *)
Definition is_llm_call (e : Event) : bool :=
  match e with
  | EvLLMGenerate _ _ _ | EvLLMStream _ _ _ | EvLLMGuidance _ _ _ => true
  | _ => false
  end.

Definition initial : State := {| progress := ∅; log := [] |}.

End Api.

(** ** Package api: the execute endpoint *)

Module Endpoints.
Import GoStr Db Models.

(** The JSON body of a reply of the endpoint. *)
Inductive Body : Type :=
| ErrorResponse (code : Z) (message details : string)
| SuccessResponse (code : Z) (message : string) (data : SQLExecuteResponse).

(** The audit record logAuditTrail builds and logs; its ID and CreatedAt
    come from uuid.New and the clock. *)
Record AuditLog : Type := {
  au_UserID : string;
  au_Action : string;
  au_SQL : string;
  au_Status : string;
  au_ErrorMsg : string
}.

Definition logAuditTrail (userID action sql : string) (success : bool)
    (errMsg : string) : AuditLog :=
  let status := if negb success then "FAILED" else "SUCCESS" in
  {| au_UserID := userID; au_Action := action; au_SQL := sql;
     au_Status := status; au_ErrorMsg := errMsg |}.

(** What the deferred recordMetric is called with: the event, the success
    flag and the map metricExtra. *)
Record Metric : Type := {
  mt_event : string;
  mt_success : bool;
  mt_user_id : string;
  mt_page : Z;
  mt_page_size : Z;
  mt_error : option string
}.

(** What one request leaves behind: the status and body given to c.JSON
    ([None] when the handler panics before replying), the audit record and
    the metric. *)
Record Served : Type := {
  reply : option (Z * Body);
  audit : option AuditLog;
  metric : option Metric
}.

(** ExecuteSQL executes a SQL query; [bound] is the outcome of
    ShouldBindJSON. *)
Definition ExecuteSQL (sqlExecutor : Executor.SQLExecutor) (c : Api.Context)
    (bound : outcome SQLExecuteRequest) : Served :=
  match bound with
  | Failed err =>
      {| reply := Some (400, ErrorResponse 400 "Invalid request" err);
         audit := None; metric := None |}
  | Done req =>
      let record success error :=
        {| mt_event := "execute_sql"; mt_success := success;
           mt_user_id := Api.GetString c "user_id";
           mt_page := req_Page req; mt_page_size := req_PageSize req;
           mt_error := error |} in
      match Executor.ExecuteSQL sqlExecutor req with
      | (_, Some err) =>
          {| reply := Some (500, ErrorResponse 500 "Failed to execute SQL" err);
             audit := None; metric := Some (record false (Some err)) |}
      | (None, None) =>
          (* result.Success on a nil result *)
          {| reply := None; audit := None; metric := Some (record false None) |}
      | (Some result, None) =>
          let userID := Api.GetString c "user_id" in
          {| reply := Some (200, SuccessResponse 200 "SQL executed successfully" result);
             audit := Some (logAuditTrail userID "EXECUTE_SQL" (req_SQL req)
                              (Success result) (Error result));
             metric := Some (if Success result then record true None
                             else record false (Some (Error result))) |}
      end
  end.

End Endpoints.

(** ** Packages memory and chat: reading a session back *)

Module Memory.
Import Db.

Section Rows.

(** What Scan fills: a memory.Entry or a chat.Message. *)
Context {Entry : Type}.

(** [tmp[i], tmp[j] = tmp[j], tmp[i]]; an index out of range panics. *)
Definition swap (tmp : list Entry) (i j : Z) : option (list Entry) :=
  if ((i <? 0) || (j <? 0))%bool then None
  else
    match tmp !! Z.to_nat i, tmp !! Z.to_nat j with
    | Some x, Some y => Some (<[ Z.to_nat i := y ]> (<[ Z.to_nat j := x ]> tmp))
    | _, _ => None
    end.

(** [for i, j := 0, len(tmp)-1; i < j; i, j = i+1, j-1 { swap }], run for
    at most [fuel] iterations; [None] for a panic or for fuel that runs
    out. *)
Fixpoint reverse_loop (fuel : nat) (i j : Z) (tmp : list Entry)
  : option (list Entry) :=
  match fuel with
  | O => if i <? j then None else Some tmp
  | S fuel' =>
      if i <? j then
        match swap tmp i j with
        | Some tmp' => reverse_loop fuel' (i + 1) (j - 1) tmp'
        | None => None
        end
      else Some tmp
  end.

Definition reverse_in_place (tmp : list Entry) : option (list Entry) :=
  reverse_loop (length tmp) 0 (Z.of_nat (length tmp) - 1) tmp.

(** The scanning loop of memory: a row whose Scan fails is skipped. *)
Fixpoint scan_skipping (rows : list (outcome Entry)) : list Entry :=
  match rows with
  | [] => []
  | Done e :: rest => e :: scan_skipping rest
  | Failed _ :: rest => scan_skipping rest
  end.

(** The scanning loop of chat: the first Scan error ends the call. *)
Fixpoint scan_all (rows : list (outcome Entry)) : outcome (list Entry) :=
  match rows with
  | [] => Done []
  | Failed msg :: _ => Failed msg
  | Done e :: rest =>
      match scan_all rest with
      | Done result => Done (e :: result)
      | Failed msg => Failed msg
      end
  end.

(** The memory store: its driver, and what the database answers to the
    statement of GetRecent (the newest entries of the session first, at
    most [limit]) for the Oracle or the other dialect and its three binds. *)
Record Store : Type := {
  driver : string;
  db_Query : bool -> string -> string -> Z -> outcome (list (outcome Entry))
}.

(** GetRecent; [None] for a panic. *)
Definition GetRecent (s : Store) (userID sessionID : string) (limit : Z)
  : option (list Entry) :=
  if limit <=? 0 then Some []
  else
    let sessionID := if String.eqb sessionID "" then "default" else sessionID in
    match db_Query s (String.eqb (driver s) "oracle") userID sessionID limit with
    | Failed _ => Some []
    | Done rows => reverse_in_place (scan_skipping rows)
    end.

(** The chat store: the statement of GetMessages has the LIKE pattern as
    an additional bind when the keyword is not empty. *)
Record ChatStore : Type := {
  chat_driver : string;
  chat_Query :
    bool -> string -> string -> option string -> Z ->
    outcome (list (outcome Entry))
}.

(** GetMessages; [None] for a panic. *)
Definition GetMessages (s : ChatStore) (userID sessionID keyword : string)
    (limit : Z) : option (outcome (list Entry)) :=
  let limit := if limit <=? 0 then 100 else limit in
  let like :=
    if negb (String.eqb keyword "") then Some ("%" +:+ keyword +:+ "%")
    else None in
  match chat_Query s (String.eqb (chat_driver s) "oracle") userID sessionID
          like limit with
  | Failed msg => Some (Failed msg)
  | Done rows =>
      match scan_all rows with
      | Failed msg => Some (Failed msg)
      | Done result => option_map Done (reverse_in_place result)
      end
  end.

End Rows.

Arguments Store : clear implicits.
Arguments ChatStore : clear implicits.

End Memory.

(** ** Package api: helper functions *)

Module Helpers.
Import GoStr.

Fixpoint normalizeKeywords (keywords : list string) : list string :=
  match keywords with
  | [] => []
  | kw :: rest =>
      let trimmed := TrimSpace kw in
      if negb (String.eqb trimmed "") then trimmed :: normalizeKeywords rest
      else normalizeKeywords rest
  end.

(** What the replacer of sanitizeFilename puts for one byte: nothing for a
    double quote, an underscore for a line feed, a carriage return, a
    slash and a backslash, the byte itself otherwise. *)
Definition replace_byte (c : ascii) : list ascii :=
  if Ascii.eqb c "034"%char then []
  else if (Ascii.eqb c "010"%char || Ascii.eqb c "013"%char
           || Ascii.eqb c "/"%char || Ascii.eqb c "\"%char)%bool
       then ["_"%char]
  else [c].

(** sanitizeFilename; [stamp] is the clock reading formatted as
    20060102_150405. *)
Definition sanitizeFilename (stamp name : string) : string :=
  let name := TrimSpace name in
  let name := if String.eqb name "" then "export_" +:+ stamp else name in
  of_bytes (flat_map replace_byte (bytes name)).

End Helpers.

(** ** Package db: the cache of column comments (oracle.go) *)

Module Comments.
Import GoStr Db.

(** The first loop of lookupColumnComments: the keys of the columns, each
    once, the empty key apart. *)

Fixpoint unique_loop (columns : list string) (seen : gset string) : list string :=
  match columns with
  | [] => []
  | col :: rest =>
      let key := ToUpper (TrimSpace col) in
      if String.eqb key "" then unique_loop rest seen
      else if bool_decide (key ∈ seen) then unique_loop rest seen
      else key :: unique_loop rest ({[ key ]} ∪ seen)
  end.

(** The loop over the cache: the comments it holds for the keys, and the
    keys it does not hold. *)
Fixpoint cache_loop (cache : gmap string string) (unique : list string)
    (result : gmap string string) (toFetch : list string)
  : gmap string string * list string :=
  match unique with
  | [] => (result, toFetch)
  | key :: rest =>
      match cache !! key with
      | Some comment =>
          cache_loop cache rest
            (if negb (String.eqb comment "") then <[ key := comment ]> result
             else result)
            toFetch
      | None => cache_loop cache rest result (toFetch ++ [key])
      end
  end.

(** [const chunkSize = 900] *)
Definition chunkSize : nat := 900.

Section Fetch.

(** fetchColumnCommentsChunk: what the catalog answers for the names of
    one IN list, the names in upper case and the comments trimmed. *)
Variable fetchColumnCommentsChunk : list string -> outcome (gmap string string).

(** The loop of fetchColumnComments over [start], run for at most [fuel]
    chunks; [None] when the fuel runs out. *)
Fixpoint fetch_loop (fuel : nat) (start : nat) (columns : list string)
    (result : gmap string string) : option (outcome (gmap string string)) :=
  match fuel with
  | O => if (start <? length columns)%nat then None else Some (Done result)
  | S fuel' =>
      if (start <? length columns)%nat then
        let end_ := (start + chunkSize)%nat in
        let end_ := if (length columns <? end_)%nat then length columns else end_ in
        let chunk := take (end_ - start) (drop start columns) in
        match fetchColumnCommentsChunk chunk with
        | Failed err => Some (Failed err)
        | Done chunkResult =>
            fetch_loop fuel' (start + chunkSize) columns (chunkResult ∪ result)
        end
      else Some (Done result)
  end.

Definition fetchColumnComments (columns : list string)
  : option (outcome (gmap string string)) :=
  fetch_loop (length columns) 0 columns ∅.

(** [if _, ok := fetched[key]; !ok { c.columnCommentCache[key] = "x" }]
    with the empty string for x. *)
Definition mark_missing (fetched : gmap string string)
    (cache : gmap string string) (key : string) : gmap string string :=
  match fetched !! key with
  | Some _ => cache
  | None => <[ key := "" ]> cache
  end.

(** lookupColumnComments on the cache [cache] ([None] for the nil map):
    the map returned, the error, and the cache afterwards. *)
Definition lookupColumnComments (cache : option (gmap string string))
    (columns : list string)
  : option (gmap string string * option string * option (gmap string string)) :=
  let unique := unique_loop columns ∅ in
  match unique with
  | [] => Some (∅, None, cache)
  | _ :: _ =>
      let '(result, toFetch) :=
        match cache with
        | None => (∅, unique)
        | Some m => cache_loop m unique ∅ []
        end in
      match toFetch with
      | [] => Some (result, None, cache)
      | _ :: _ =>
          match fetchColumnComments toFetch with
          | None => None
          | Some (Failed err) => Some (result, Some err, cache)
          | Some (Done fetched) =>
              let cache0 := default ∅ cache in
              let cache1 := fetched ∪ cache0 in
              let result1 :=
                filter (fun kv => kv.2 <> "") fetched ∪ result in
              let cache2 := foldl (mark_missing fetched) cache1 toFetch in
              Some (result1, None, Some cache2)
          end
      end
  end.

End Fetch.
End Comments.

(** ** Package api: the schema context handed to the LLM *)

Module Schema.
Import GoStr Db.

Record ColumnInfo : Type := {
  ColumnName : string;
  DataType : string;
  col_Comment : string
}.

Record TableSchema : Type := {
  TableName : string;
  tbl_Comment : string;
  tbl_Columns : list ColumnInfo
}.

(** The two calls of the database client the function makes. *)
Record Client : Type := {
  GetAllTables : outcome (list string);
  GetTableSchema : string -> outcome TableSchema
}.

(** strings.Split on a one-byte separator; [cur] holds the bytes of the
    current part, last first. *)
Fixpoint split_on (sep : ascii) (l cur : list ascii) : list string :=
  match l with
  | [] => [of_bytes (rev cur)]
  | c :: l' =>
      if Ascii.eqb c sep then of_bytes (rev cur) :: split_on sep l' []
      else split_on sep l' (c :: cur)
  end.

Definition Split (s : string) (sep : ascii) : list string :=
  split_on sep (bytes s) [].

(** The loop over the parts of the table filter. *)
Fixpoint filter_loop (names : list string) : list string :=
  match names with
  | [] => []
  | name :: rest =>
      let name := TrimSpace name in
      if negb (String.eqb name "") then ToUpper name :: filter_loop rest
      else filter_loop rest
  end.

Definition target_tables (tableNames : string) : list string :=
  let trimmed := TrimSpace tableNames in
  if negb (String.eqb trimmed "") then filter_loop (Split trimmed ","%char)
  else [].

Definition column_line (col : ColumnInfo) : string :=
  "  - " +:+ ColumnName col +:+ " (" +:+ DataType col +:+ ")" +:+
  (if negb (String.eqb (col_Comment col) "") then " - " +:+ col_Comment col
   else "") +:+ nl.

Fixpoint column_lines (cols : list ColumnInfo) : string :=
  match cols with
  | [] => ""
  | col :: rest => column_line col +:+ column_lines rest
  end.

Definition table_block (schema : TableSchema) : string :=
  nl +:+ "Table: " +:+ TableName schema +:+ nl +:+
  (if negb (String.eqb (tbl_Comment schema) "")
   then "Comment: " +:+ tbl_Comment schema +:+ nl else "") +:+
  "Columns:" +:+ nl +:+ column_lines (tbl_Columns schema).

(** The variables of the loop over the tables. *)
Record loop_state : Type := {
  builder : string;
  successCount : Z;
  attemptCount : Z;
  fallbackTables : list string
}.

Definition maxTables : Z := 10.
Definition maxAttempts : Z := 40.

(** The loop over the target tables; [ctx_Err i] tells whether the context
    is done when iteration [i] starts. *)
Fixpoint tables_loop (c : Client) (ctx_Err : nat -> bool) (i : nat)
    (tables : list string) (st : loop_state) : loop_state :=
  match tables with
  | [] => st
  | table :: rest =>
      if ctx_Err i then st
      else if ((maxAttempts <=? attemptCount st) && (0 <? successCount st))%bool
      then st
      else if maxTables <=? successCount st then
        {| builder := builder st +:+ nl +:+ "... and more" +:+ nl;
           successCount := successCount st;
           attemptCount := attemptCount st;
           fallbackTables := fallbackTables st |}
      else
        match GetTableSchema c table with
        | Failed _ =>
            tables_loop c ctx_Err (S i) rest
              {| builder := builder st;
                 successCount := successCount st;
                 attemptCount := attemptCount st + 1;
                 fallbackTables := fallbackTables st ++ [table] |}
        | Done schema =>
            tables_loop c ctx_Err (S i) rest
              {| builder := builder st +:+ table_block schema;
                 successCount := successCount st + 1;
                 attemptCount := attemptCount st + 1;
                 fallbackTables := fallbackTables st |}
        end
  end.

Fixpoint fallback_lines (names : list string) : string :=
  match names with
  | [] => ""
  | name :: rest => "  - " +:+ name +:+ nl +:+ fallback_lines rest
  end.

(** What the function returns, with the counts of its closing log line
    (zero where it returns before that line, for an empty list). *)
Record Context : Type := {
  text : string;
  tables_requested : Z;
  tables_included : Z;
  tables_attempted : Z
}.

Definition getDatabaseSchemaContext (c : Client) (ctx_Err : nat -> bool)
    (tableNames : string) : outcome Context :=
  let targetTables := target_tables tableNames in
  let listed :=
    match targetTables with
    | [] => GetAllTables c
    | _ :: _ => Done targetTables
    end in
  match listed with
  | Failed err => Failed err
  | Done [] =>
      Done {| text := "Database schema metadata is unavailable.";
              tables_requested := 0; tables_included := 0;
              tables_attempted := 0 |}
  | Done targetTables =>
      let st := tables_loop c ctx_Err 0 targetTables
                  {| builder := "Available tables in the database:" +:+ nl;
                     successCount := 0; attemptCount := 0;
                     fallbackTables := [] |} in
      let tail :=
        if ((successCount st =? 0) && (0 <? length (fallbackTables st))%nat)%bool
        then
          nl +:+ "Metadata for specific tables is restricted. Known table names include:"
          +:+ nl +:+
          fallback_lines (take (Z.to_nat maxTables) (fallbackTables st))
        else "" in
      Done {| text := builder st +:+ tail;
              tables_requested := Z.of_nat (length targetTables);
              tables_included := successCount st;
              tables_attempted := attemptCount st |}
  end.

End Schema.

(** ** Package config: list-valued settings (config.go) *)

Module Config.
Import GoStr.



End Config.

(** * Vocabulary of the specification

    The notions the properties are stated with: what the specification's
    words mean on the model, and what the engine is taken to answer. *)

Import GoStr Regexp Models Db Executor.

(** ** The validator *)




(** The tautology pattern of the injection table, ['.*OR.*'=']. *)
Definition tautology : regex :=
  Cat quote (Cat any (Cat (Str "OR") (Cat any (Str "'='")))).

(** The number of semicolons in a text. *)
Definition count_semicolons (l : list ascii) : Z :=
  Z.of_nat (length (List.filter (fun c => Ascii.eqb c ";"%char) l)).

(** A byte that can open a comment or a string literal: a slash, a hyphen
    or a quote. *)
Definition opens_comment_or_string (c : ascii) : bool :=
  (Ascii.eqb c "/"%char || Ascii.eqb c "-"%char || is_quote c)%bool.

(** A byte that would end the quoted file name of a Content-Disposition
    header or start a path: a double quote, a line break, a slash or a
    backslash. *)
Definition breaks_header (c : ascii) : bool :=
  (Ascii.eqb c "034"%char || Ascii.eqb c "010"%char || Ascii.eqb c "013"%char
   || Ascii.eqb c "/"%char || Ascii.eqb c "\"%char)%bool.

(** ** The progress tracker *)

(** The fields of an entry a poller reads (the time stamp apart). *)
Definition fields (e : Progress.Entry) : string * string * bool * bool * string :=
  (Progress.Stage e, Progress.Message e, Progress.Done e,
   Progress.Success e, Progress.Error e).

(** The fields that say whether and how a request ended. *)
Definition outcome_fields (e : Progress.Entry) : string * bool * bool * string :=
  (Progress.Stage e, Progress.Done e, Progress.Success e, Progress.Error e).

(** Does the operation create the entry of [id] anew? *)
Definition resets (id : string) (o : Progress.op) : bool :=
  match o with
  | Progress.OpInit id' _ _ => bool_decide (id' = id)
  | _ => false
  end.

(** ** Masking *)





(** ** Paginated execution *)






(** The engine's run of a statement fails with [msg]: when the statement
    is submitted, when the columns are read, or at the Scan of a row. *)
Definition run_fails (o : outcome Rows_) (msg : string) : Prop :=
  match o with
  | Failed m => m = msg
  | Done rows =>
      match rows_Columns rows with
      | Failed m => m = msg
      | Done _ => scan_rows (rows_Next rows) = Failed msg
      end
  end.

(** The page size ExecuteSQL works with: the default for a size that is not
    positive, and at most the configured maximum. *)
Definition effective_page_size (e : SQLExecutor) (pageSize : Z) : Z :=
  let pageSize := if pageSize <=? 0 then defaultPageSize e else pageSize in
  if maxPageSize e <? pageSize then maxPageSize e else pageSize.

(** ** The handlers *)

(** An event that is neither a reply to the caller nor a call of the LLM. *)
Definition silent (e : Api.Event) : Prop :=
  Api.is_llm_call e = false /\
  match e with
  | Api.EvJSON _ _ => False
  | _ => True
  end.

(** A step that only adds silent events to the log. *)
Definition quiet {A : Type} (m : Api.M A) : Prop :=
  forall st, exists evs,
    Api.log (m st).2 = Api.log st ++ evs /\ Forall silent evs.

(** The frame that ends a WebSocket exchange. *)
Definition ws_terminal (l : list Api.Event) : option Api.wsMessage :=
  last (Api.frames l).

(** The JSON replies, the generation calls, the guidance calls and the
    frames that end a WebSocket exchange. *)
Definition is_reply (e : Api.Event) : bool :=
  match e with
  | Api.EvJSON _ _ => true
  | _ => false
  end.

Definition is_generation (e : Api.Event) : bool :=
  match e with
  | Api.EvLLMGenerate _ _ _ | Api.EvLLMStream _ _ _ => true
  | _ => false
  end.

Definition is_guidance (e : Api.Event) : bool :=
  match e with
  | Api.EvLLMGuidance _ _ _ => true
  | _ => false
  end.

Definition is_terminal_frame (e : Api.Event) : bool :=
  match e with
  | Api.EvWS (Api.WSComplete _ _ _ _) | Api.EvWS (Api.WSError _) => true
  | _ => false
  end.

(** How many events of a kind the log holds. *)
Definition tally (f : Api.Event -> bool) (st : Api.State) : nat :=
  length (List.filter f (Api.log st)).

(** A step that adds between [lo] and [hi] events of a kind to the log. *)
Definition adds {A : Type} (f : Api.Event -> bool) (lo hi : nat) (m : Api.M A)
  : Prop :=
  forall st, (tally f st + lo <= tally f (m st).2 <= tally f st + hi)%nat.

(** The last frame written to the socket ends the exchange: it is a
    complete frame or an error frame. *)
Definition ends_exchange (l : list Api.Event) : bool :=
  match ws_terminal l with
  | Some (Api.WSComplete _ _ _ _) | Some (Api.WSError _) => true
  | _ => false
  end.

(** A step after which the last frame ends the exchange, and a step that
    writes no frame. *)
Definition closes {A : Type} (m : Api.M A) : Prop :=
  forall st, ends_exchange (Api.log (m st).2) = true.

Definition writes_no_frame {A : Type} (m : Api.M A) : Prop :=
  forall st, Api.frames (Api.log (m st).2) = Api.frames (Api.log st).






(** The comments a catalog [table] holds for the names [cols]. *)
Definition restrict (table : gmap string string) (cols : list string) : gmap string string :=
  filter (fun kv => kv.1 ∈ cols) table.


(** ** Formatting *)




(** * Properties *)



(** ** Facts on byte strings *)

Lemma bytes_of_bytes (l : list ascii) : bytes (of_bytes l) = l.
Proof. apply String.list_ascii_of_string_of_list_ascii. Qed.

Lemma of_bytes_bytes (s : string) : of_bytes (bytes s) = s.
Proof. apply String.string_of_list_ascii_of_string. Qed.


Lemma bytes_TrimSpace (s : string) :
  bytes (TrimSpace s) = trim_right (trim_left (bytes s)).
Proof. unfold TrimSpace. apply bytes_of_bytes. Qed.






(** *** TrimSpace keeps an occurrence that holds no white space *)





(** ** Facts on the matcher *)



(** ** The validator *)






Lemma injection_loop_false (sql upperSQL : string) (ps : list pattern) :
  injection_loop sql upperSQL ps = false.
Proof.
  induction ps as [|p ps IH]; [done|]. simpl.
  destruct (MatchString (re p) upperSQL); [|done].
  by destruct (String.eqb (src p) "UNION.*SELECT" && negb (hasMultipleRoots sql))%bool.
Qed.

(** C1 (as the code behaves): hasSQLInjectionPatterns answers false for
    every statement, so ValidateSQL never gives the reason "potential SQL
    injection detected"; the statement below passes the empty-input,
    SELECT-prefix and denylist checks, matches the tautology pattern of the
    table, and is accepted. *)
Theorem injection_patterns_never_reject :
  (forall sql, hasSQLInjectionPatterns sql = false) /\
  (forall sql, ValidateSQL sql <> Some "potential SQL injection detected") /\
  (let sql := "SELECT * FROM users WHERE name = '' OR '1'='1'" in
   In {| src := "'.*OR.*'='"; re := tautology |} patterns /\
   isSelectQuery (TrimSpace sql) = true /\
   hasDangerousKeywords (TrimSpace sql) = false /\
   MatchString tautology (ToUpper (TrimSpace sql)) = true /\
   ValidateSQL sql = None).
Proof.
  assert (H : forall sql, hasSQLInjectionPatterns sql = false).
  { intros sql. apply injection_loop_false. }
  split; [exact H|]. split.
  - intros sql. unfold ValidateSQL. rewrite H.
    destruct (String.eqb sql ""); [done|].
    destruct (negb _); [done|].
    destruct (hasDangerousKeywords _); [done|].
    destruct (hasStackedQueries _); done.
  - cbv zeta. split; [|vm_compute; done].
    unfold patterns. simpl. tauto.
Qed.




(** ** The progress tracker *)

Lemma Update_lookup (s : gmap string Progress.Entry) (now : Z)
    (id' stage message id : string) (e : Progress.Entry) :
  s !! id = Some e ->
  exists e', Progress.Update s now id' stage message !! id = Some e' /\
             Progress.Done e' = Progress.Done e /\
             Progress.Success e' = Progress.Success e /\
             Progress.Error e' = Progress.Error e.
Proof.
  intros H. unfold Progress.Update.
  destruct (s !! id') as [entry|] eqn:E; [|by exists e].
  destruct (decide (id' = id)) as [->|Hne].
  - rewrite lookup_insert_eq. eexists. split; [done|]. simpl.
    rewrite H in E. by injection E as ->.
  - rewrite lookup_insert_ne by done. by exists e.
Qed.

Lemma step_keeps_done (s : gmap string Progress.Entry) (now : Z)
    (o : Progress.op) (id : string) (e : Progress.Entry) :
  s !! id = Some e -> Progress.Done e = true -> resets id o = false ->
  exists e', Progress.apply s now o !! id = Some e' /\ Progress.Done e' = true.
Proof.
  intros H Hd Hr. destruct o as [i st m|i st m|i m|i m]; simpl in *.
  - apply bool_decide_eq_false in Hr. unfold Progress.Init.
    rewrite lookup_insert_ne by done. by exists e.
  - destruct (Update_lookup s now i st m id e H) as (e' & E & D & _).
    exists e'. split; [done|]. congruence.
  - unfold Progress.Complete. destruct (s !! i) as [entry|] eqn:E; [|by exists e].
    destruct (decide (i = id)) as [->|Hne].
    + rewrite lookup_insert_eq. by eexists.
    + rewrite lookup_insert_ne by done. by exists e.
  - unfold Progress.Fail. destruct (s !! i) as [entry|] eqn:E; [|by exists e].
    destruct (decide (i = id)) as [->|Hne].
    + rewrite lookup_insert_eq. by eexists.
    + rewrite lookup_insert_ne by done. by exists e.
Qed.

(** C8 (counterexample): the entry is done after Complete, and the Update
    that follows changes its stage. *)
Lemma update_after_done_changes_stage :
  let s := Progress.run Progress.NewStore
             [(0, Progress.OpInit "r1" "received" "queued");
              (1, Progress.OpComplete "r1" "finished")] in
  let s' := Progress.run s [(2, Progress.OpUpdate "r1" "llm_call" "calling")] in
  (Progress.Done <$> s !! "r1") = Some true /\
  (outcome_fields <$> s !! "r1") = Some ("completed", true, true, "") /\
  (outcome_fields <$> s' !! "r1") = Some ("llm_call", true, true, "").
Proof. by vm_compute. Qed.

(** C8 (amended): along every sequence of Update, Complete and Fail
    operations, and of Init on other request ids, an entry whose done flag
    is true stays stored with the flag true; and an Update leaves done,
    success and error of every entry as they were. *)
Theorem done_stays_done (s : gmap string Progress.Entry)
    (ops : list (Z * Progress.op)) (id : string) (e : Progress.Entry) :
  s !! id = Some e ->
  Progress.Done e = true ->
  Forall (fun p => resets id p.2 = false) ops ->
  (exists e', Progress.run s ops !! id = Some e' /\ Progress.Done e' = true) /\
  (forall now id' stage message,
     exists e', Progress.Update s now id' stage message !! id = Some e' /\
                Progress.Done e' = Progress.Done e /\
                Progress.Success e' = Progress.Success e /\
                Progress.Error e' = Progress.Error e).
Proof.
  intros H Hd Hops. split.
  - revert s e H Hd. induction Hops as [|[now o] ops Ho _ IH]; intros s e H Hd.
    + by exists e.
    + destruct (step_keeps_done s now o id e H Hd Ho) as (e1 & E1 & D1).
      unfold Progress.run. simpl. apply (IH _ e1 E1 D1).
  - intros now id' stage message. by apply Update_lookup.
Qed.

(** C8 (witness): a failed entry stays done through an Update, an Init of
    another id and a Complete. *)
Lemma done_stays_done_witness :
  let s := Progress.run Progress.NewStore
             [(0, Progress.OpInit "r1" "received" "queued");
              (1, Progress.OpFail "r1" "timeout")] in
  exists e', Progress.run s [(2, Progress.OpUpdate "r1" "llm_call" "calling");
                             (3, Progress.OpInit "r2" "received" "queued");
                             (4, Progress.OpComplete "r1" "finished")] !! "r1"
             = Some e' /\ Progress.Done e' = true.
Proof.
  cbv zeta.
  refine (proj1 (done_stays_done _ _ "r1"
    {| Progress.ID := "r1"; Progress.Stage := "failed";
       Progress.Message := "请求失败"; Progress.Done := true;
       Progress.Success := false; Progress.Error := "timeout";
       Progress.UpdatedAt := 1 |} _ _ _)).
  - by vm_compute.
  - reflexivity.
  - repeat constructor.
Defined.

(** C9 (counterexample): Init on a request id whose entry is completed
    stores a fresh entry in its place. *)
Lemma init_on_present_id_resets :
  let s := Progress.run Progress.NewStore
             [(0, Progress.OpInit "r1" "received" "queued");
              (1, Progress.OpComplete "r1" "finished")] in
  (fields <$> s !! "r1") = Some ("completed", "finished", true, true, "") /\
  (fields <$> Progress.Init s 2 "r1" "received" "queued" !! "r1")
    = Some ("received", "queued", false, false, "").
Proof. by vm_compute. Qed.

(** C9 (amended): Init stores a fresh entry under the request id whether or
    not one is present: afterwards the entry has the given stage and
    message, done and success false and no error, and the entries of the
    other ids are untouched.  So a second Init with the same stage and
    message leaves these five fields as the first left them. *)
Theorem Init_stores_fresh_entry (s : gmap string Progress.Entry)
    (now now' : Z) (id stage message : string) :
  (fields <$> Progress.Init s now id stage message !! id)
    = Some (stage, message, false, false, "") /\
  (forall id', id' <> id ->
     Progress.Init s now id stage message !! id' = s !! id') /\
  (fields <$> Progress.Init (Progress.Init s now id stage message)
                now' id stage message !! id)
    = (fields <$> Progress.Init s now id stage message !! id).
Proof.
  unfold Progress.Init. rewrite !lookup_insert_eq. split; [done|]. split; [|done].
  intros id' Hne. by rewrite lookup_insert_ne.
Qed.

(** C9 (witness): a second Init of r1 leaves the entry of r2 alone and
    gives r1 the same fresh fields as the first. *)
Lemma Init_stores_fresh_entry_witness :
  let s := Progress.run Progress.NewStore
             [(0, Progress.OpInit "r1" "received" "queued");
              (1, Progress.OpInit "r2" "received" "queued");
              (2, Progress.OpComplete "r2" "finished")] in
  Progress.Init s 3 "r1" "received" "queued" !! "r2" = s !! "r2" /\
  (fields <$> Progress.Init s 3 "r1" "received" "queued" !! "r1")
    = Some ("received", "queued", false, false, "").
Proof.
  intros s.
  destruct (Init_stores_fresh_entry s 3 4 "r1" "received" "queued") as (H1 & H2 & _).
  split; [|exact H1]. apply H2. discriminate.
Defined.

(** ** The user scope of the read handlers *)

Lemma EqualFold_admin (role : string) :
  ToLower role <> "admin" -> EqualFold role "admin" = false.
Proof.
  intros H. unfold EqualFold. apply String.eqb_neq.
  change (ToLower "admin") with "admin". exact H.
Qed.

(** C10: when the role is not admin in any letter case, scopedUserID is the
    authenticated user_id, whatever the URL query holds: two requests with
    the same keys resolve to the same scope. *)
Theorem non_admin_scope_ignores_query
    (keys : gmap string Api.any) (q1 q2 : gmap string string) :
  let c1 := {| Api.Keys := keys; Api.QueryValues := q1 |} in
  let c2 := {| Api.Keys := keys; Api.QueryValues := q2 |} in
  ToLower (Api.getUserRole c1) <> "admin" ->
  Api.scopedUserID c1 = Api.GetString c1 "user_id" /\
  Api.scopedUserID c1 = Api.scopedUserID c2.
Proof.
  intros c1 c2 H.
  assert (H1 : Api.isAdmin c1 = false) by (by apply EqualFold_admin).
  assert (H2 : Api.isAdmin c2 = false) by (by apply EqualFold_admin).
  unfold Api.scopedUserID. rewrite H1, H2. done.
Qed.

(** C10 (witness): the user alice with role user asks for the data of bob. *)
Lemma non_admin_scope_ignores_query_witness :
  let keys : gmap string Api.any :=
    <[ "user_id" := Api.AStr "alice" ]> (<[ "role" := Api.AStr "user" ]> ∅) in
  let c1 := {| Api.Keys := keys; Api.QueryValues := <[ "user_id" := "bob" ]> ∅ |} in
  let c2 := {| Api.Keys := keys; Api.QueryValues := ∅ |} in
  ToLower (Api.getUserRole c1) <> "admin" /\
  Api.GetString c1 "user_id" = "alice" /\
  Api.scopedUserID c1 = Api.GetString c1 "user_id" /\
  Api.scopedUserID c1 = Api.scopedUserID c2.
Proof.
  cbv zeta.
  assert (H : ToLower (Api.getUserRole
                {| Api.Keys := <[ "user_id" := Api.AStr "alice" ]>
                                 (<[ "role" := Api.AStr "user" ]> ∅);
                   Api.QueryValues := <[ "user_id" := "bob" ]> ∅ |}) <> "admin").
  { vm_compute. discriminate. }
  split; [exact H|]. split; [by vm_compute|].
  exact (non_admin_scope_ignores_query _ _ ∅ H).
Defined.

(** ** Masking of sensitive columns *)









(** Every result of the client reports no masked column: masked_columns is
    set by applyMasking alone. *)
Lemma ExecuteQueryRange_no_masked (c : OracleClient) (query : string)
    (offset limit : Z) (resp : SQLExecuteResponse) (err : option string) :
  ExecuteQueryRange c query offset limit = (Some resp, err) ->
  MaskedColumns resp = [].
Proof.
  unfold ExecuteQueryRange, ExecuteQuery.
  repeat match goal with
         | |- context [ match ?x with _ => _ end ] => destruct x
         end;
    intros H; injection H as <- _; reflexivity.
Qed.






(** ** Template matching *)





(** ** The generation handlers *)




Lemma quiet_seq {A B : Type} (m : Api.M A) (k : Api.M B) :
  quiet m -> quiet k -> quiet (Api.bind m (fun _ => k)).
Proof.
  intros Hm Hk st. unfold Api.bind.
  destruct (Hm st) as (e1 & E1 & F1). destruct (m st) as [a st1].
  destruct (Hk st1) as (e2 & E2 & F2). exists (e1 ++ e2).
  simpl in *. rewrite E2, E1, app_assoc. split; [done|]. by apply Forall_app.
Qed.












(** ** Paginated execution *)








(** *** A validated statement is not empty once sanitized *)

Lemma String_length_bytes (s : string) : String.length s = length (bytes s).
Proof. induction s as [|c s IH]; [done|]. simpl. by rewrite IH. Qed.

Lemma bytes_inj (s t : string) : bytes s = bytes t -> s = t.
Proof. intros H. by rewrite <- (of_bytes_bytes s), <- (of_bytes_bytes t), H. Qed.

Lemma TrimSuffix_empty (s : string) :
  TrimSuffix s ";" = "" -> s = "" \/ s = ";".
Proof.
  unfold TrimSuffix. destruct (HasSuffix s ";") eqn:E; [|by left].
  intros H. right. apply (f_equal bytes) in H.
  unfold slice in H. rewrite bytes_of_bytes in H. simpl in H.
  rewrite drop_0 in H. unfold len in H.
  unfold HasSuffix in E. apply bytes_inj.
  rewrite String_length_bytes in H.
  destruct (bytes s) as [|c [|d l]] eqn:Eb.
  - done.
  - change (has_prefix (rev [c]) (rev (bytes ";")))
      with (Ascii.eqb ";" c && true)%bool in E.
    rewrite andb_true_r in E. apply Ascii.eqb_eq in E. by subst.
  - exfalso. change (String.length ";") with 1%nat in H.
    simpl length in H.
    replace (Z.to_nat (Z.of_nat (S (S (length l))) - Z.of_nat 1 - 0))
      with (S (length l)) in H by lia.
    done.
Qed.

Lemma validated_not_empty (sql : string) :
  ValidateSQL sql = None -> TrimSuffix (TrimSpace sql) ";" <> "".
Proof.
  unfold ValidateSQL. destruct (String.eqb sql ""); [done|].
  destruct (isSelectQuery (TrimSpace sql)) eqn:E; [|done]. intros _ H.
  apply TrimSuffix_empty in H as [H|H]; rewrite H in E; vm_compute in E; done.
Qed.



Lemma New_page_sizes (dbc : OracleClient) (cfg : option Config) :
  0 < defaultPageSize (New dbc cfg) <= maxPageSize (New dbc cfg).
Proof.
  unfold New. cbn [defaultPageSize maxPageSize].
  destruct cfg as [[d m s]|]; cbn [SQLDefaultPageSize SQLMaxPageSize];
    repeat match goal with
           | |- context [ ?a <? ?b ] => destruct (Z.ltb_spec a b)
           | |- context [ ?a <=? ?b ] => destruct (Z.leb_spec a b)
           end; lia.
Qed.

Lemma effective_page_size_bounds (dbc : OracleClient) (cfg : option Config)
    (pageSize : Z) :
  0 < effective_page_size (New dbc cfg) pageSize <= maxPageSize (New dbc cfg).
Proof.
  pose proof (New_page_sizes dbc cfg). unfold effective_page_size.
  repeat match goal with
         | |- context [ ?a <? ?b ] => destruct (Z.ltb_spec a b)
         | |- context [ ?a <=? ?b ] => destruct (Z.leb_spec a b)
         end; lia.
Qed.





(** ** Error handling of ExecuteSQL *)


Lemma ExecuteSQL_error_nil (e : SQLExecutor) (req : SQLExecuteRequest) :
  (ExecuteSQL e req).2 = None.
Proof.
  unfold ExecuteSQL. destruct (ValidateSQL (req_SQL req)); [done|].
  by destruct (ExecuteQueryRange _ _ _ _).
Qed.

Lemma scan_rows_range_fails (idx : Z) (next : list (outcome (list value)))
    (msg : string) :
  scan_rows next = Failed msg -> scan_rows_range idx next = Failed msg.
Proof.
  induction next as [|[values|m] next IH]; simpl; [done| |done].
  destruct (scan_rows next); [done|]. intros H. by rewrite IH.
Qed.

(** A failure of the engine at submission, at Columns or at a Scan is
    captured into the result, with a nil error. *)
Lemma engine_failure_is_captured (e : SQLExecutor) (req : SQLExecuteRequest)
    (msg : string) :
  ValidateSQL (req_SQL req) = None ->
  (forall query args, run_fails (QueryContext (dbClient e) query args) msg) ->
  exists resp,
    ExecuteSQL e req = (Some resp, None) /\
    Success resp = false /\ Error resp = msg.
Proof.
  intros Hvalid Hfail. unfold ExecuteSQL. rewrite Hvalid.
  unfold ExecuteQueryRange, ExecuteQuery.
  apply validated_not_empty, String.eqb_neq in Hvalid. rewrite Hvalid.
  destruct (_ <=? 0).
  - specialize (Hfail (req_SQL req) []). unfold run_fails in Hfail.
    destruct (QueryContext _ _ _) as [rows|m]; [|subst m; by eexists].
    destruct (rows_Columns rows) as [columns|m]; [|subst m; by eexists].
    rewrite Hfail. by eexists.
  - match goal with |- context [ QueryContext ?c ?q ?args ] =>
      specialize (Hfail q args); destruct (QueryContext c q args) as [rows|m]
    end; [|simpl in Hfail; subst m; by eexists].
    simpl in Hfail.
    destruct (rows_Columns rows) as [columns|m]; [|subst m; by eexists].
    rewrite (scan_rows_range_fails _ _ _ Hfail). by eexists.
Qed.

(** C6 (as the code behaves): ExecuteSQL never returns an error; when the
    iteration over the rows ends with an error, ExecuteQueryRange returns
    it next to a result with success true, and ExecuteSQL returns that
    result with a nil error and an empty error field. *)
Theorem iteration_error_is_dropped :
  (forall e req, (ExecuteSQL e req).2 = None) /\
  let dbc := {| QueryContext := fun _ _ =>
                  Done {| rows_Columns := Done ["ID"; "RNUM"];
                          rows_Next := [Done [VInt 10; VInt 1]];
                          rows_Err := Some "driver: bad connection" |};
                lookupColumnComments := fun _ => Done ∅;
                elapsed := 0 |} in
  let req := {| req_SQL := "SELECT id FROM t"; req_Timeout := 0;
                req_Page := 1; req_PageSize := 50 |} in
  ValidateSQL (req_SQL req) = None /\
  (ExecuteQueryRange dbc (req_SQL req) 0 50).2 = Some "driver: bad connection" /\
  exists resp,
    ExecuteSQL (New dbc None) req = (Some resp, None) /\
    Success resp = true /\ Error resp = "" /\ Rows resp = [[VInt 10]].
Proof.
  split; [apply ExecuteSQL_error_nil|]. cbv zeta.
  split; [by vm_compute|]. split; [by vm_compute|].
  eexists. split; [by vm_compute|]. by vm_compute.
Qed.

(** ** The two delivery adapters *)

(** C4 (as the code behaves): with the same collaborators, an LLM answer
    that trips the guardrail ("ERROR: table not found") is replaced by a
    guidance hint on REST and completes as it is on the WebSocket; a hard
    LLM failure is answered by guidance on REST and by an error frame on
    the WebSocket, which never asks for guidance. *)
Theorem adapters_differ :
  let answer := {| SQL := "ERROR: table not found"; Reasoning := "no such table";
                   Source := ""; TemplateID := ""; UsedMemory := false;
                   resp_RequestID := "" |} in
  let handler (generated : outcome SQLGenerateResponse) :=
    {| Api.templateSvc := None; Api.memoryStore := None;
       Api.chatStore := true; Api.progressStore := true; Api.monitor := true;
       Api.llmClient :=
         {| Api.llm_GenerateSQL := fun _ _ _ => generated;
            Api.llm_GenerateSQLStream := fun _ _ _ => ([], generated);
            Api.llm_GenerateGuidance := fun _ _ _ => Done "name the table you mean" |};
       Api.getDatabaseSchemaContext := fun _ => Done "schema";
       Api.uuid_New := "generated-id"; Api.time_Now := 0 |} in
  let req := {| Query := "orders of last week"; Context_ := ""; TableNames := "";
                SessionID := ""; RequestID := "r1" |} in
  let c := {| Api.Keys := {[ "user_id" := Api.AStr "alice" ]};
              Api.QueryValues := ∅ |} in
  let rest generated :=
    Api.log (Api.GenerateSQL (handler generated) (Done req) c Api.initial).2 in
  let ws generated :=
    Api.log (Api.handleWebSocketGeneration (handler generated) "alice" req
               Api.initial).2 in
  Api.needsGuidance (SQL answer) = true /\
  Api.rest_terminal (rest (Done answer)) None
    = Some (Api.Answer "" "name the table you mean" "assistant_hint" false) /\
  ws_terminal (ws (Done answer))
    = Some (Api.WSComplete "ERROR: table not found" "no such table" "" false) /\
  Api.rest_terminal (rest (Failed "llm unavailable")) None
    = Some (Api.Answer "" "name the table you mean" "assistant_hint" false) /\
  ws_terminal (ws (Failed "llm unavailable"))
    = Some (Api.WSError "llm unavailable") /\
  forallb (fun e => match e with Api.EvLLMGuidance _ _ _ => false | _ => true end)
          (ws (Done answer) ++ ws (Failed "llm unavailable")) = true.
Proof. cbv zeta. repeat split; by vm_compute. Qed.

(** ** The keys of a decorated column *)









(** * Further properties

    What the rest of the code shows: edge cases, invariants and the way the
    operations compose. *)

(** ** The progress store: keys *)

(** X1: An operation touches no entry but that of its own request id. *)
Theorem progress_other_ids_untouched (s : gmap string Progress.Entry)
    (ops : list (Z * Progress.op)) (id : string) :
  Forall (fun p => match p.2 with
                   | Progress.OpInit i _ _ | Progress.OpUpdate i _ _
                   | Progress.OpComplete i _ | Progress.OpFail i _ => i <> id
                   end) ops ->
  Progress.run s ops !! id = s !! id.
Proof.
  intros H. revert s. induction H as [|[now o] ops Ho _ IH]; intros s; [done|].
  unfold Progress.run. cbn [fold_left]. fold (Progress.run (Progress.apply s now o) ops).
  rewrite IH. simpl in Ho.
  destruct o as [i st m|i st m|i m|i m]; simpl;
    unfold Progress.Init, Progress.Update, Progress.Complete, Progress.Fail;
    try destruct (s !! i); try done; by rewrite lookup_insert_ne.
Qed.

(** X1 (witness): progress_other_ids_untouched at a run on r1 that leaves r2
    alone. *)
Lemma progress_other_ids_untouched_witness :
  let s := Progress.Init Progress.NewStore 0 "r2" "received" "queued" in
  Progress.run s [(1, Progress.OpInit "r1" "received" "queued");
                  (2, Progress.OpFail "r1" "timeout")] !! "r2" = s !! "r2".
Proof.
  intros s. apply progress_other_ids_untouched.
  repeat constructor; simpl; discriminate.
Defined.

(** X2: Update, Complete and Fail on a request id that has no entry change
    nothing, and only Init adds a key: the keys after an operation are the
    keys before, with the id of an Init. *)
Theorem progress_keys (s : gmap string Progress.Entry) (now : Z) (o : Progress.op) :
  dom (Progress.apply s now o)
  = match o with
    | Progress.OpInit id _ _ => {[ id ]} ∪ dom s
    | _ => dom s
    end /\
  match o with
  | Progress.OpInit _ _ _ => True
  | Progress.OpUpdate id _ _ | Progress.OpComplete id _ | Progress.OpFail id _ =>
      s !! id = None -> Progress.apply s now o = s
  end.
Proof.
  destruct o as [i st m|i st m|i m|i m]; simpl;
    unfold Progress.Init, Progress.Update, Progress.Complete, Progress.Fail.
  - split; [|done]. apply dom_insert_L.
  - destruct (s !! i) eqn:E; (split; [|done]); [|done].
    rewrite dom_insert_L. apply subseteq_union_1_L, singleton_subseteq_l.
    by apply (elem_of_dom_2 s) in E.
  - destruct (s !! i) eqn:E; (split; [|done]); [|done].
    rewrite dom_insert_L. apply subseteq_union_1_L, singleton_subseteq_l.
    by apply (elem_of_dom_2 s) in E.
  - destruct (s !! i) eqn:E; (split; [|done]); [|done].
    rewrite dom_insert_L. apply subseteq_union_1_L, singleton_subseteq_l.
    by apply (elem_of_dom_2 s) in E.
Qed.

(** X2 (witness): progress_keys at a Fail on a request id that was never
    initialised. *)
Lemma progress_keys_witness :
  Progress.apply Progress.NewStore 5 (Progress.OpFail "ghost" "timeout")
  = Progress.NewStore.
Proof.
  apply (proj2 (progress_keys Progress.NewStore 5 (Progress.OpFail "ghost" "timeout"))).
  reflexivity.
Defined.


(** ** updateProgress never starts a request over *)

(** X4: With a progress store and a request id, updateProgress leaves the log
    alone and the entries of the other ids as they are; the entry of the id
    gets the stage and the message, and keeps done, success and error when it
    was there (an absent entry starts with done and success false). *)
Theorem updateProgress_keeps_outcome (h : Api.APIHandler)
    (requestID stage message : string) (st : Api.State) :
  let st' := (Api.updateProgress h requestID stage message st).2 in
  Api.progressStore h = true ->
  requestID <> "" ->
  Api.log st' = Api.log st /\
  (forall id, id <> requestID -> Api.progress st' !! id = Api.progress st !! id) /\
  exists e',
    Api.progress st' !! requestID = Some e' /\
    Progress.Stage e' = stage /\ Progress.Message e' = message /\
    (Progress.Done e', Progress.Success e', Progress.Error e')
    = match Api.progress st !! requestID with
      | Some e => (Progress.Done e, Progress.Success e, Progress.Error e)
      | None => (false, false, "")
      end.
Proof.
  intros st' Hstore Hid. subst st'. unfold Api.updateProgress.
  rewrite Hstore. apply String.eqb_neq in Hid. rewrite Hid. simpl.
  split; [done|]. unfold Progress.Get, Progress.Init, Progress.Update.
  destruct (Api.progress st !! requestID) as [e|] eqn:E; rewrite ?E.
  - split; [intros id Hne; by rewrite lookup_insert_ne|].
    rewrite lookup_insert_eq. by eexists.
  - split; [intros id Hne; by rewrite lookup_insert_ne|].
    rewrite lookup_insert_eq. by eexists.
Qed.

(** X4 (witness): updateProgress_keeps_outcome at a failed request that pings
    again. *)
Lemma updateProgress_keeps_outcome_witness :
  let h := {| Api.templateSvc := None; Api.memoryStore := None;
              Api.chatStore := false; Api.progressStore := true;
              Api.monitor := false;
              Api.llmClient :=
                {| Api.llm_GenerateSQL := fun _ _ _ => Failed "unused";
                   Api.llm_GenerateSQLStream := fun _ _ _ => ([], Failed "unused");
                   Api.llm_GenerateGuidance := fun _ _ _ => Failed "unused" |};
              Api.getDatabaseSchemaContext := fun _ => Done "schema";
              Api.uuid_New := "generated-id"; Api.time_Now := 9 |} in
  let st := {| Api.progress :=
                 Progress.run Progress.NewStore
                   [(0, Progress.OpInit "r1" "received" "queued");
                    (1, Progress.OpFail "r1" "timeout")];
               Api.log := [] |} in
  exists e',
    Api.progress (Api.updateProgress h "r1" "received" "again" st).2 !! "r1"
    = Some e' /\
    Progress.Stage e' = "received" /\ Progress.Message e' = "again" /\
    (Progress.Done e', Progress.Success e', Progress.Error e')
    = (true, false, "timeout").
Proof.
  intros h st.
  destruct (updateProgress_keeps_outcome h "r1" "received" "again" st eq_refl)
    as (_ & _ & e' & H1 & H2 & H3 & H4); [discriminate|].
  exists e'. repeat split; try assumption.
Defined.

(** ** Template matching: what Match returns *)





(** ** TrimSpace *)

Lemma trim_left_suffix (l : list ascii) : exists d, l = d ++ trim_left l.
Proof.
  induction l as [|c l [d IH]]; [by exists []|]. simpl.
  destruct (is_space c); [|by exists []].
  exists (c :: d). simpl. by rewrite <- IH.
Qed.

Lemma trim_left_head (l : list ascii) (c : ascii) :
  head (trim_left l) = Some c -> is_space c = false.
Proof.
  induction l as [|x l IH]; [done|]. simpl.
  destruct (is_space x) eqn:E; [done|]. simpl. by intros [= <-].
Qed.

Lemma trim_left_noop (l : list ascii) :
  (forall c, head l = Some c -> is_space c = false) -> trim_left l = l.
Proof. destruct l as [|x l]; [done|]. simpl. intros H. by rewrite (H x). Qed.

Lemma trim_left_idem (l : list ascii) : trim_left (trim_left l) = trim_left l.
Proof. apply trim_left_noop, trim_left_head. Qed.

Lemma trim_right_idem (l : list ascii) : trim_right (trim_right l) = trim_right l.
Proof. unfold trim_right. by rewrite rev_involutive, trim_left_idem. Qed.

Lemma trim_right_prefix (l : list ascii) : exists d, l = trim_right l ++ d.
Proof.
  unfold trim_right. destruct (trim_left_suffix (rev l)) as [d H].
  exists (rev d). rewrite <- rev_app_distr, <- H. by rewrite rev_involutive.
Qed.

Lemma trimmed_fixed (l : list ascii) :
  trim_right (trim_left (trim_right (trim_left l))) = trim_right (trim_left l).
Proof.
  rewrite (trim_left_noop (trim_right (trim_left l))); [apply trim_right_idem|].
  intros c Hc. destruct (trim_right_prefix (trim_left l)) as [d Hd].
  apply (trim_left_head l). rewrite Hd.
  destruct (trim_right (trim_left l)); [done|]. exact Hc.
Qed.

Lemma TrimSpace_idem (s : string) : TrimSpace (TrimSpace s) = TrimSpace s.
Proof.
  apply bytes_inj. rewrite !bytes_TrimSpace. apply trimmed_fixed.
Qed.

(** ** The validator and surrounding white space *)

(** X6: White space around a statement does not change the verdict of
    ValidateSQL, and a statement of white space only is never accepted: the
    empty text is refused as empty, the blank text as not a SELECT. *)
Theorem ValidateSQL_surrounding_space (sql : string) :
  (TrimSpace sql <> "" -> ValidateSQL sql = ValidateSQL (TrimSpace sql)) /\
  (TrimSpace sql = "" ->
   ValidateSQL sql
   = Some (if String.eqb sql "" then "SQL query cannot be empty"
           else "only SELECT queries are allowed")).
Proof.
  unfold ValidateSQL. split.
  - intros H. rewrite TrimSpace_idem.
    destruct (String.eqb_spec sql "") as [->|_]; [done|].
    apply String.eqb_neq in H. by rewrite H.
  - intros H. rewrite H. by destruct (String.eqb sql "").
Qed.

(** X6 (witness): ValidateSQL_surrounding_space at a padded statement. *)
Lemma ValidateSQL_surrounding_space_witness :
  ValidateSQL "   select 1 from dual; drop table t  "
  = ValidateSQL (TrimSpace "   select 1 from dual; drop table t  ").
Proof.
  apply (proj1 (ValidateSQL_surrounding_space _)). by vm_compute.
Defined.

(** ** Stacked queries *)

Lemma delete_matches_semicolons (r : regex) (prev : option ascii)
    (s : list ascii) (skip : nat) :
  count_semicolons (delete_matches r prev s skip) <= count_semicolons s.
Proof.
  unfold count_semicolons.
  revert prev skip. induction s as [|c s IH]; intros prev skip.
  - by destruct skip.
  - assert (Hdrop : forall p k,
      Z.of_nat (length (List.filter (fun c => Ascii.eqb c ";"%char)
                          (delete_matches r p s k)))
      <= Z.of_nat (length (List.filter (fun c => Ascii.eqb c ";"%char) (c :: s)))).
    { intros p k. specialize (IH p k). simpl. destruct (Ascii.eqb c ";"); simpl; lia. }
    assert (Hkeep : forall p k,
      Z.of_nat (length (List.filter (fun c => Ascii.eqb c ";"%char)
                          (c :: delete_matches r p s k)))
      <= Z.of_nat (length (List.filter (fun c => Ascii.eqb c ";"%char) (c :: s)))).
    { intros p k. specialize (IH p k). simpl. destruct (Ascii.eqb c ";"); simpl; lia. }
    destruct skip as [|k]; cbn [delete_matches]; [|apply Hdrop].
    destruct (match_here r prev (c :: s)) as [rest|]; [|apply Hkeep].
    destruct (length (c :: s) - length rest)%nat; [apply Hkeep | apply Hdrop].
Qed.

Lemma scan_step_count (before : option ascii) (char : ascii) (st : scan) :
  semicolonCount st <= semicolonCount (scan_step before char st)
    <= semicolonCount st + (if Ascii.eqb char ";"%char then 1 else 0).
Proof.
  unfold scan_step.
  destruct (is_quote char && _)%bool, (negb (inString st)),
    (Ascii.eqb char (stringChar st)), (Ascii.eqb char ";"); simpl;
    try destruct (inString st); simpl; lia.
Qed.

Lemma scan_loop_count (before : option ascii) (l : list ascii) (st : scan) :
  semicolonCount (scan_loop before l st) <= semicolonCount st + count_semicolons l.
Proof.
  unfold count_semicolons. revert before st.
  induction l as [|c l IH]; intros before st; simpl; [lia|].
  specialize (IH (Some c) (scan_step before c st)).
  pose proof (scan_step_count before c st).
  destruct (Ascii.eqb c ";"); simpl length; lia.
Qed.

Lemma comment_not_here (prev : option ascii) (s : list ascii) :
  (forall c, head s = Some c -> opens_comment_or_string c = false) ->
  match_here commentRegex prev s = None.
Proof.
  intros H. unfold match_here, commentRegex.
  destruct s as [|c s]; [done|]. specialize (H c eq_refl).
  unfold opens_comment_or_string in H.
  apply orb_false_elim in H as [H _]. apply orb_false_elim in H as [H1 H2].
  change (Str "/*") with (Cat (Lit "/"%char) (Lit "*"%char)).
  change (Str "--") with (Cat (Lit "-"%char) (Lit "-"%char)).
  cbn [run]. by rewrite H1, H2.
Qed.

Lemma delete_comments_none (prev : option ascii) (s : list ascii) :
  Forall (fun c => opens_comment_or_string c = false) s ->
  delete_matches commentRegex prev s 0 = s.
Proof.
  intros H. revert prev. induction H as [|c s Hc _ IH]; intros prev; [done|].
  cbn [delete_matches]. rewrite comment_not_here; [by rewrite IH|].
  by intros ? [= <-].
Qed.

Lemma scan_loop_plain (before : option ascii) (l : list ascii) (n : Z) (ch : ascii) :
  Forall (fun c => opens_comment_or_string c = false) l ->
  semicolonCount (scan_loop before l
    {| inString := false; stringChar := ch; semicolonCount := n |})
  = n + count_semicolons l.
Proof.
  unfold count_semicolons. intros H. revert before n.
  induction H as [|c l Hc _ IH]; intros before n; [simpl; lia|].
  cbn [scan_loop]. unfold scan_step.
  unfold opens_comment_or_string in Hc. apply orb_false_elim in Hc as [_ Hq].
  rewrite Hq. cbn [andb inString semicolonCount stringChar negb].
  simpl List.filter. destruct (Ascii.eqb c ";"); cbn [andb]; rewrite IH; simpl length; lia.
Qed.

(** X7: A statement with at most one semicolon is never taken for stacked
    queries; and in a text without slash, hyphen and quotes, where nothing is
    a comment or a literal, it is taken for stacked queries exactly when it
    has more than one semicolon. *)
Theorem stacked_queries_by_count (sql : string) :
  (count_semicolons (bytes sql) <= 1 -> hasStackedQueries sql = false) /\
  (Forall (fun c => opens_comment_or_string c = false) (bytes sql) ->
   hasStackedQueries sql = (1 <? count_semicolons (bytes sql))).
Proof.
  unfold hasStackedQueries, ReplaceAllString_empty. rewrite bytes_of_bytes. split.
  - intros H. apply Z.ltb_ge.
    pose proof (scan_loop_count None (delete_matches commentRegex None (bytes sql) 0)
      {| inString := false; stringChar := zero; semicolonCount := 0 |}) as H1.
    pose proof (delete_matches_semicolons commentRegex None (bytes sql) 0) as H2.
    simpl semicolonCount in H1 at 2. lia.
  - intros H. rewrite delete_comments_none by done.
    by rewrite scan_loop_plain.
Qed.

(** X7 (witness): stacked_queries_by_count at a statement with one closing
    semicolon and at one with two. *)
Lemma stacked_queries_by_count_witness :
  hasStackedQueries "SELECT 1 FROM dual;" = false /\
  hasStackedQueries "SELECT 1 FROM dual; SELECT 2 FROM dual;" = true.
Proof.
  split.
  - apply (proj1 (stacked_queries_by_count _)). by vm_compute.
  - rewrite (proj2 (stacked_queries_by_count _)); [by vm_compute|].
    apply Forall_forall. intros c Hc. apply list_elem_of_In in Hc.
    apply (proj1 (forallb_forall _ _) (eq_refl : forallb
      (fun c => negb (opens_comment_or_string c))
      (bytes "SELECT 1 FROM dual; SELECT 2 FROM dual;") = true)) in Hc.
    by apply negb_true_iff.
Defined.

(** ** Pages after the first *)






(** ** A page is never longer than asked for *)


Lemma ExecuteQueryRange_result (c : OracleClient) (query : string) (offset limit : Z) :
  0 < limit ->
  exists r err, ExecuteQueryRange c query offset limit = (Some r, err) /\
    RowCount r = Z.of_nat (length (Rows r)) /\
    Z.of_nat (length (Rows r)) <= limit.
Proof.
  intros Hlimit. unfold ExecuteQueryRange.
  destruct (Z.leb_spec limit 0); [lia|].
  destruct (String.eqb _ ""); [do 2 eexists; repeat split; simpl; lia|].
  destruct (QueryContext _ _ _) as [rows|m]; [|do 2 eexists; repeat split; simpl; lia].
  destruct (rows_Columns rows) as [columns|m]; [|do 2 eexists; repeat split; simpl; lia].
  destruct (scan_rows_range _ _) as [resultRows|m]; [|do 2 eexists; repeat split; simpl; lia].
  do 2 eexists. split; [done|]. cbn [RowCount Rows]. split; [done|].
  destruct (Z.ltb_spec limit (Z.of_nat (length resultRows))); [|lia].
  rewrite length_take. lia.
Qed.

Lemma applyMasking_rows (e : SQLExecutor) (resp : SQLExecuteResponse) :
  length (Rows (applyMasking e resp)) = length (Rows resp) /\
  RowCount (applyMasking e resp) = RowCount resp /\
  Success (applyMasking e resp) = Success resp /\
  Error (applyMasking e resp) = Error resp.
Proof.
  unfold applyMasking. destruct (_ || _)%bool; [done|].
  destruct (collect_masked _ _ _) as [[|i indexes] masked]; [done|].
  cbn [set_masked Rows RowCount Success Error]. by rewrite length_map.
Qed.


(** X9: Whatever the engine answers, ExecuteSQL returns a result and a nil
    error; the result never holds more rows than the effective page size,
    hence never more than the configured maximum, and its row count is the
    number of its rows. *)
Theorem ExecuteSQL_page_is_bounded (dbc : OracleClient) (cfg : option Config)
    (req : SQLExecuteRequest) :
  let e := New dbc cfg in
  exists resp,
    ExecuteSQL e req = (Some resp, None) /\
    Z.of_nat (length (Rows resp)) <= effective_page_size e (req_PageSize req)
      <= maxPageSize e /\
    RowCount resp = Z.of_nat (length (Rows resp)).
Proof.
  intros e.
  pose proof (effective_page_size_bounds dbc cfg (req_PageSize req)) as Hn.
  fold e in Hn. unfold ExecuteSQL.
  destruct (ValidateSQL (req_SQL req)) as [reason|].
  { eexists. split; [done|]. cbn [failure Rows RowCount length]. lia. }
  fold (effective_page_size e (req_PageSize req)).
  match goal with |- context [ ExecuteQueryRange ?c ?q ?o ?l ] =>
    destruct (ExecuteQueryRange_result c q o l) as (r & err & -> & Hcount & Hlen)
  end; [lia|].
  cbn [option_map]. eexists. split; [done|].
  match goal with |- context [ applyMasking e ?x ] =>
    destruct (applyMasking_rows e x) as (-> & -> & _)
  end.
  cbn [set_paging Rows RowCount]. lia.
Qed.

(** ** The execute endpoint *)


(** ** What a generation request leaves in the log *)

Lemma adds_ret {A : Type} (f : Api.Event -> bool) (a : A) : adds f 0 0 (Api.ret a).
Proof. intros st. unfold Api.ret. cbn [snd]. lia. Qed.

Lemma adds_emit (f : Api.Event -> bool) (e : Api.Event) :
  adds f (if f e then 1 else 0) (if f e then 1 else 0) (Api.emit e).
Proof.
  intros st. unfold tally, Api.emit. cbn [snd Api.log].
  rewrite List.filter_app, length_app. simpl. destruct (f e); simpl; lia.
Qed.

Lemma adds_on_progress (f : Api.Event -> bool) g : adds f 0 0 (Api.on_progress g).
Proof. intros st. unfold tally, Api.on_progress. cbn [snd Api.log]. lia. Qed.

Lemma adds_weaken {A : Type} (f : Api.Event -> bool) (lo hi lo' hi' : nat)
    (m : Api.M A) :
  adds f lo hi m -> (lo' <= lo)%nat -> (hi <= hi')%nat -> adds f lo' hi' m.
Proof. intros H ? ? st. specialize (H st). lia. Qed.

Lemma adds_seq {A B : Type} (f : Api.Event -> bool) (a lo hi : nat)
    (m : Api.M A) (k : A -> Api.M B) :
  adds f a a m -> (a <= hi)%nat ->
  (forall x, adds f (lo - a) (hi - a) (k x)) ->
  adds f lo hi (Api.bind m k).
Proof.
  intros Hm Hle Hk st. unfold Api.bind. specialize (Hm st).
  destruct (m st) as [x st1]. specialize (Hk x st1). simpl in *. lia.
Qed.

Lemma adds_bind {A B : Type} (f : Api.Event -> bool) (a b c d : nat)
    (m : Api.M A) (k : A -> Api.M B) :
  adds f a b m -> (forall x, adds f c d (k x)) ->
  adds f (a + c) (b + d) (Api.bind m k).
Proof.
  intros Hm Hk st. unfold Api.bind. specialize (Hm st).
  destruct (m st) as [x st1]. specialize (Hk x st1). simpl in *. lia.
Qed.

Lemma adds_write_chunks (f : Api.Event -> bool) (chunks : list string) :
  (forall chunk done, f (Api.EvWS (Api.WSChunk chunk done)) = false) ->
  adds f 0 0 (Api.write_chunks chunks).
Proof.
  intros Hf. induction chunks as [|chunk chunks IH]; [apply adds_ret|].
  cbn [Api.write_chunks]. apply (adds_seq f 0); [|lia|by intros _].
  unfold Api.writeWSChunk. pose proof (adds_emit f (Api.EvWS (Api.WSChunk chunk false))) as H.
  by rewrite Hf in H.
Qed.

Lemma adds_generateGuidanceResponse (f : Api.Event -> bool) (h : Api.APIHandler)
    (req : SQLGenerateRequest) (schemaContext issue requestID : string) :
  let n := if f (Api.EvLLMGuidance (Query req) schemaContext issue) then 1%nat else 0%nat in
  adds f n n (Api.generateGuidanceResponse h req schemaContext issue requestID).
Proof.
  intros n. unfold Api.generateGuidanceResponse.
  apply (adds_seq f n); [apply adds_emit|lia|]. intros _.
  replace (n - n)%nat with 0%nat by lia.
  destruct (Api.llm_GenerateGuidance _ _ _ _); apply adds_ret.
Qed.

Ltac adds_prim :=
  cbv beta delta [Api.updateProgress Api.completeProgress Api.failProgress
    Api.saveChatMessage Api.appendMemory Api.recordMetric Api.skip
    Api.writeWSProgress Api.writeWSChunk Api.writeWSComplete Api.writeWSError];
  repeat match goal with
         | |- adds _ _ _ (if ?c then _ else _) => destruct c
         | |- adds _ _ _ (match ?c with _ => _ end) => destruct c
         end;
  lazymatch goal with
  | |- adds ?f _ _ (Api.emit ?e) => exact (adds_emit f e)
  | |- adds ?f _ _ (Api.ret ?a) => exact (adds_ret f a)
  | |- adds ?f _ _ (Api.on_progress ?g) => exact (adds_on_progress f g)
  end.

Ltac adds_go :=
  lazymatch goal with
  | |- adds _ _ _ (Api.bind (Api.generateGuidanceResponse _ _ _ _ _) _) =>
      eapply adds_seq;
      [ exact (adds_generateGuidanceResponse _ _ _ _ _ _) | simpl; lia
      | intros ?; adds_go ]
  | |- adds _ _ _ (Api.bind (Api.write_chunks _) _) =>
      eapply adds_seq;
      [ by apply adds_write_chunks | simpl; lia | intros ?; adds_go ]
  | |- adds _ _ _ (Api.bind _ _) =>
      eapply adds_seq; [ adds_prim | simpl; lia | intros ?; adds_go ]
  | |- adds _ _ _ (Api.ret _) =>
      eapply adds_weaken; [ apply adds_ret | simpl; lia | simpl; lia ]
  | |- adds _ _ _ (if ?c then _ else _) => destruct c; adds_go
  | |- adds _ _ _ (match ?c with _ => _ end) => destruct c; adds_go
  | |- _ => eapply adds_weaken; [ adds_prim | simpl; lia | simpl; lia ]
  end.

Lemma GenerateSQL_body_adds (h : Api.APIHandler) (req : SQLGenerateRequest)
    (userID : string) :
  adds is_reply 1 1 (Api.GenerateSQL_body h req userID) /\
  adds is_generation 0 1 (Api.GenerateSQL_body h req userID) /\
  adds is_guidance 0 1 (Api.GenerateSQL_body h req userID).
Proof.
  unfold Api.GenerateSQL_body. cbv zeta. split; [|split]; adds_go.
Qed.

Lemma handleWebSocketGeneration_body_adds (h : Api.APIHandler) (userID : string)
    (req : SQLGenerateRequest) :
  adds is_terminal_frame 1 1 (Api.handleWebSocketGeneration_body h userID req) /\
  adds is_reply 0 0 (Api.handleWebSocketGeneration_body h userID req) /\
  adds is_generation 0 1 (Api.handleWebSocketGeneration_body h userID req) /\
  adds is_guidance 0 0 (Api.handleWebSocketGeneration_body h userID req).
Proof.
  unfold Api.handleWebSocketGeneration_body. cbv zeta.
  split; [|split; [|split]]; adds_go.
Qed.

(** X11: The REST handler answers every request with exactly one JSON reply,
    whatever the collaborators answer (and with none when the user_id key
    holds a value that is not a string, where the type assertion panics); it
    calls the LLM for SQL at most once and for guidance at most once. *)
Theorem GenerateSQL_replies_once (h : Api.APIHandler)
    (bound : outcome SQLGenerateRequest) (c : Api.Context) (st : Api.State) :
  let st' := (Api.GenerateSQL h bound c st).2 in
  tally is_reply st'
  = (tally is_reply st
     + match bound, Api.Get c "user_id" with
       | Done _, Some Api.AOther => 0
       | _, _ => 1
       end)%nat /\
  (tally is_generation st' <= tally is_generation st + 1)%nat /\
  (tally is_guidance st' <= tally is_guidance st + 1)%nat.
Proof.
  set (n := match bound, Api.Get c "user_id" with
            | Done _, Some Api.AOther => 0%nat
            | _, _ => 1%nat
            end).
  assert (H : adds is_reply n n (Api.GenerateSQL h bound c) /\
              adds is_generation 0 1 (Api.GenerateSQL h bound c) /\
              adds is_guidance 0 1 (Api.GenerateSQL h bound c)).
  { subst n. unfold Api.GenerateSQL.
    destruct bound as [req|details];
      [destruct (Api.Get c "user_id") as [[userID|]|]|];
      (split; [|split]);
      try (eapply adds_weaken;
           [ eapply adds_bind; [apply GenerateSQL_body_adds | intros r; adds_prim]
           | simpl; lia | simpl; lia ]);
      adds_go. }
  destruct H as (Hr & Hg & Hh). cbv zeta.
  specialize (Hr st). specialize (Hg st). specialize (Hh st). lia.
Qed.

Lemma frames_snoc (l : list Api.Event) (e : Api.Event) :
  Api.frames (l ++ [e])
  = Api.frames l ++ match e with Api.EvWS m => [m] | _ => [] end.
Proof. unfold Api.frames. rewrite omap_app. by destruct e. Qed.

Lemma closes_after {A B : Type} (m : Api.M A) (k : A -> Api.M B) :
  (forall x, closes (k x)) -> closes (Api.bind m k).
Proof. intros Hk st. unfold Api.bind. destruct (m st) as [x st1]. apply Hk. Qed.

Lemma closes_then {A B : Type} (m : Api.M A) (k : A -> Api.M B) :
  closes m -> (forall x, writes_no_frame (k x)) -> closes (Api.bind m k).
Proof.
  intros Hm Hk st. unfold Api.bind. specialize (Hm st).
  destruct (m st) as [x st1]. unfold ends_exchange, ws_terminal in *.
  by rewrite (Hk x st1).
Qed.

Lemma closes_writeWSComplete (resp : SQLGenerateResponse) :
  closes (Api.writeWSComplete resp).
Proof.
  intros st. unfold ends_exchange, ws_terminal. cbn [Api.writeWSComplete Api.emit snd Api.log].
  by rewrite frames_snoc, last_snoc.
Qed.

Lemma closes_writeWSError (message : string) : closes (Api.writeWSError message).
Proof.
  intros st. unfold ends_exchange, ws_terminal. cbn [Api.writeWSError Api.emit snd Api.log].
  by rewrite frames_snoc, last_snoc.
Qed.

Lemma writes_no_frame_ret {A : Type} (a : A) : writes_no_frame (Api.ret a).
Proof. by intros st. Qed.

Lemma writes_no_frame_recordMetric (h : Api.APIHandler) (event : string)
    (success : bool) (extra : gmap string string) :
  writes_no_frame (Api.recordMetric h event success extra).
Proof.
  intros st. unfold Api.recordMetric. destruct (negb (Api.monitor h)); [done|].
  cbn [Api.emit snd Api.log]. rewrite frames_snoc. apply app_nil_r.
Qed.

Ltac closes_go :=
  lazymatch goal with
  | |- closes (Api.bind (Api.writeWSComplete _) _) =>
      apply closes_then;
      [ apply closes_writeWSComplete | intros ?; apply writes_no_frame_ret ]
  | |- closes (Api.bind (Api.writeWSError _) _) =>
      apply closes_then;
      [ apply closes_writeWSError | intros ?; apply writes_no_frame_ret ]
  | |- closes (Api.bind _ _) => apply closes_after; intros ?; closes_go
  | |- closes (if ?c then _ else _) => destruct c; closes_go
  | |- closes (match ?c with _ => _ end) => destruct c; closes_go
  end.

Lemma handleWebSocketGeneration_body_closes (h : Api.APIHandler) (userID : string)
    (req : SQLGenerateRequest) :
  closes (Api.handleWebSocketGeneration_body h userID req).
Proof. unfold Api.handleWebSocketGeneration_body. cbv zeta. closes_go. Qed.

(** X12: The WebSocket handler ends every exchange with exactly one terminal
    frame, complete or error, and that frame is the last one written, whatever
    the collaborators answer; it sends no JSON reply, calls the LLM for SQL at
    most once and never asks it for guidance. *)
Theorem websocket_ends_once (h : Api.APIHandler) (userID : string)
    (req : SQLGenerateRequest) (st : Api.State) :
  let st' := (Api.handleWebSocketGeneration h userID req st).2 in
  tally is_terminal_frame st' = (tally is_terminal_frame st + 1)%nat /\
  ends_exchange (Api.log st') = true /\
  tally is_reply st' = tally is_reply st /\
  (tally is_generation st' <= tally is_generation st + 1)%nat /\
  tally is_guidance st' = tally is_guidance st.
Proof.
  assert (H : adds is_terminal_frame 1 1 (Api.handleWebSocketGeneration h userID req) /\
              adds is_reply 0 0 (Api.handleWebSocketGeneration h userID req) /\
              adds is_generation 0 1 (Api.handleWebSocketGeneration h userID req) /\
              adds is_guidance 0 0 (Api.handleWebSocketGeneration h userID req)).
  { unfold Api.handleWebSocketGeneration.
    split; [|split; [|split]];
      (eapply adds_weaken;
       [ eapply adds_bind;
         [apply handleWebSocketGeneration_body_adds | intros r; adds_prim]
       | simpl; lia | simpl; lia ]). }
  destruct H as (Ht & Hr & Hg & Hh). cbv zeta.
  specialize (Ht st). specialize (Hr st). specialize (Hg st). specialize (Hh st).
  split; [lia|]. split; [|lia].
  apply (closes_then (Api.handleWebSocketGeneration_body h userID req)).
  - apply handleWebSocketGeneration_body_closes.
  - intros r. apply writes_no_frame_recordMetric.
Qed.

(** ** Where the REST handler leaves the progress of a request *)








Section Tracked.

Variable h : Api.APIHandler.
Variable id : string.
Hypothesis Hstore : Api.progressStore h = true.
Hypothesis Hid : id <> "".




End Tracked.




(** ** Reading a session back in chronological order *)

Lemma reverse_loop_spec {Entry : Type} (fuel : nat) (a m b : list Entry) :
  (length m <= fuel)%nat ->
  Memory.reverse_loop fuel (Z.of_nat (length a))
    (Z.of_nat (length a + length m) - 1) (a ++ m ++ b)
  = Some (a ++ rev m ++ b).
Proof.
  revert a m b. induction fuel as [|fuel IH]; intros a m b Hfuel.
  - destruct m; [|simpl in Hfuel; lia]. simpl.
    destruct (Z.ltb_spec (Z.of_nat (length a)) (Z.of_nat (length a + 0) - 1)); [lia|done].
  - destruct m as [|x m].
    { simpl. destruct (Z.ltb_spec (Z.of_nat (length a)) (Z.of_nat (length a + 0) - 1));
        [lia|done]. }
    destruct (exists_last (l := x :: m)) as (m' & y & Hm); [done|].
    destruct m' as [|x' m'].
    { destruct m; [|destruct m; discriminate]. simpl.
      destruct (Z.ltb_spec (Z.of_nat (length a)) (Z.of_nat (length a + 1) - 1)); [lia|done]. }
    injection Hm as <- Hm. subst m. cbn [Memory.reverse_loop].
    simpl length. rewrite length_app. simpl length.
    destruct (Z.ltb_spec (Z.of_nat (length a))
                (Z.of_nat (length a + S (length m' + 1)) - 1)); [|lia].
    unfold Memory.swap.
    destruct (Z.ltb_spec (Z.of_nat (length a)) 0); [lia|].
    destruct (Z.ltb_spec (Z.of_nat (length a + S (length m' + 1)) - 1) 0); [lia|].
    cbn [orb]. rewrite Nat2Z.id.
    replace (Z.to_nat (Z.of_nat (length a + S (length m' + 1)) - 1))
      with (length a + S (length m'))%nat by lia.
    rewrite (lookup_app_r a) by lia. rewrite Nat.sub_diag. cbn [app lookup list_lookup].
    rewrite (lookup_app_r a) by lia.
    replace (length a + S (length m') - length a)%nat with (S (length m')) by lia.
    cbn [lookup list_lookup].
    rewrite <- app_assoc. rewrite (lookup_app_r m') by lia. rewrite Nat.sub_diag.
    cbn [app lookup list_lookup].
    rewrite (insert_app_r_alt a) by lia.
    replace (length a + S (length m') - length a)%nat with (S (length m')) by lia.
    cbn [insert list_insert]. rewrite (insert_app_r_alt m') by lia.
    rewrite Nat.sub_diag. cbn [insert list_insert].
    rewrite (insert_app_r_alt a) by lia. rewrite Nat.sub_diag. cbn [insert list_insert].
    specialize (IH (a ++ [y]) m' (x :: b)).
    rewrite length_app in IH. simpl length in IH.
    replace (Z.of_nat (length a) + 1) with (Z.of_nat (length a + 1)) by lia.
    replace (Z.of_nat (length a + S (length m' + 1)) - 1 - 1)
      with (Z.of_nat (length a + 1 + length m') - 1) by lia.
    rewrite <- app_assoc in IH. cbn [app] in IH.
    rewrite IH by (simpl in Hfuel; rewrite length_app in Hfuel; simpl in Hfuel; lia).
    f_equal. rewrite <- app_assoc. cbn [app]. f_equal.
    simpl rev. rewrite rev_app_distr. simpl. by rewrite <- app_assoc.
Qed.

Lemma reverse_in_place_rev {Entry : Type} (tmp : list Entry) :
  Memory.reverse_in_place tmp = Some (rev tmp).
Proof.
  unfold Memory.reverse_in_place.
  pose proof (reverse_loop_spec (length tmp) [] tmp [] (Nat.le_refl _)) as H.
  simpl in H. by rewrite !app_nil_r in H.
Qed.

(** X14: GetRecent never panics and returns the entries the database lists
    newest first in chronological order, oldest first, the rows whose Scan
    fails left out; it returns nothing for a limit that is not positive or
    when the query fails, and reads the session default for an empty session
    id. *)
Theorem GetRecent_chronological {Entry : Type} (s : Memory.Store Entry)
    (userID sessionID : string) (limit : Z) :
  Memory.GetRecent s userID sessionID limit
  = Some (if limit <=? 0 then []
          else
            match Memory.db_Query s (String.eqb (Memory.driver s) "oracle") userID
                    (if String.eqb sessionID "" then "default" else sessionID)
                    limit with
            | Failed _ => []
            | Done rows => rev (Memory.scan_skipping rows)
            end).
Proof.
  unfold Memory.GetRecent. destruct (limit <=? 0); [done|].
  destruct (Memory.db_Query _ _ _ _ _); [|done]. apply reverse_in_place_rev.
Qed.

(** X15: GetMessages never panics; it passes on the error of the query or of
    the first Scan that fails, and otherwise returns the messages the database
    lists newest first in chronological order; a limit that is not positive
    stands for 100. *)
Theorem GetMessages_chronological {Entry : Type} (s : Memory.ChatStore Entry)
    (userID sessionID keyword : string) (limit : Z) :
  Memory.GetMessages s userID sessionID keyword limit
  = Some (match Memory.chat_Query s (String.eqb (Memory.chat_driver s) "oracle")
                  userID sessionID
                  (if String.eqb keyword "" then None
                   else Some ("%" +:+ keyword +:+ "%"))
                  (if limit <=? 0 then 100 else limit) with
          | Failed msg => Failed msg
          | Done rows =>
              match Memory.scan_all rows with
              | Failed msg => Failed msg
              | Done result => Done (rev result)
              end
          end).
Proof.
  unfold Memory.GetMessages. destruct (String.eqb keyword ""); cbn [negb];
    destruct (Memory.chat_Query _ _ _ _ _ _); try done;
    destruct (Memory.scan_all _); try done;
    by rewrite reverse_in_place_rev.
Qed.

(** ** Decoration does not defeat masking *)



(** ** Helper functions of the handlers *)


Lemma matchScore_loop_normalized (query : string) (keywords : list string) (hits : Z) :
  Templates.matchScore_loop query (Helpers.normalizeKeywords keywords) hits
  = Templates.matchScore_loop query keywords hits.
Proof.
  revert hits. induction keywords as [|kw keywords IH]; intros hits; [done|].
  cbn [Helpers.normalizeKeywords Templates.matchScore_loop].
  destruct (String.eqb_spec (TrimSpace kw) "") as [E|E]; cbn [negb].
  - rewrite E. change (ToLower "") with "". cbn [String.eqb]. apply IH.
  - cbn [Templates.matchScore_loop]. rewrite TrimSpace_idem.
    destruct (String.eqb _ ""); [apply IH|]. destruct (Contains _ _); apply IH.
Qed.

(** X17: Normalizing the keywords of a template before it is saved does not
    change what the template matches: the score of every query is the same
    with the normalized keywords; the normalized list holds no blank keyword
    and no keyword with surrounding white space, and normalizing it again
    changes nothing. *)
Theorem normalizeKeywords_keeps_score (keywords : list string) :
  (forall query,
     Templates.matchScore query (Helpers.normalizeKeywords keywords)
     = Templates.matchScore query keywords) /\
  Forall (fun kw => TrimSpace kw = kw /\ kw <> "") (Helpers.normalizeKeywords keywords) /\
  Helpers.normalizeKeywords (Helpers.normalizeKeywords keywords)
  = Helpers.normalizeKeywords keywords.
Proof.
  split; [intros query; apply matchScore_loop_normalized|].
  assert (H : Forall (fun kw => TrimSpace kw = kw /\ kw <> "")
                (Helpers.normalizeKeywords keywords)).
  { induction keywords as [|kw keywords IH]; [constructor|].
    cbn [Helpers.normalizeKeywords].
    destruct (String.eqb_spec (TrimSpace kw) "") as [E|E]; cbn [negb]; [done|].
    constructor; [|done]. split; [apply TrimSpace_idem|done]. }
  split; [exact H|].
  induction H as [|kw l [Hk Hne] _ IH]; [done|].
  cbn [Helpers.normalizeKeywords]. rewrite Hk.
  apply String.eqb_neq in Hne. rewrite Hne. cbn [negb]. by rewrite IH.
Qed.

(** X18: The file name sanitizeFilename returns holds no double quote, no line
    break, no slash and no backslash, whatever name the request gave. *)
Theorem sanitizeFilename_is_inert (stamp name : string) :
  Forall (fun c => breaks_header c = false)
         (bytes (Helpers.sanitizeFilename stamp name)).
Proof.
  unfold Helpers.sanitizeFilename. rewrite bytes_of_bytes.
  match goal with |- Forall _ (flat_map _ ?l) => generalize l end.
  intros l. induction l as [|c l IH]; [constructor|].
  cbn [flat_map]. apply Forall_app. split; [|exact IH].
  unfold Helpers.replace_byte, breaks_header.
  destruct (Ascii.eqb c "034") eqn:E1; [constructor|].
  destruct (Ascii.eqb c "010") eqn:E2; [by repeat constructor|].
  destruct (Ascii.eqb c "013") eqn:E3; [by repeat constructor|].
  destruct (Ascii.eqb c "/") eqn:E4; [by repeat constructor|].
  destruct (Ascii.eqb c "\") eqn:E5; [by repeat constructor|].
  cbn [orb]. repeat constructor. by rewrite E1, E2, E3, E4, E5.
Qed.



(** ** The cache of column comments *)

Lemma fetch_loop_spec fetch (table : gmap string string) (columns : list string) :
  (forall chunk, (0 < length chunk <= Comments.chunkSize)%nat ->
                 fetch chunk = Done (restrict table chunk)) ->
  forall fuel start result,
  (length columns - start <= fuel)%nat ->
  result = restrict table (take start columns) ->
  Comments.fetch_loop fetch fuel start columns result
  = Some (Done (restrict table columns)).
Proof.
  intros Hf. induction fuel as [|fuel IH]; intros start result Hfuel Hres.
  - simpl. destruct (Nat.ltb_spec start (length columns)); [lia|].
    rewrite take_ge in Hres by lia. by subst.
  - cbn [Comments.fetch_loop].
    destruct (Nat.ltb_spec start (length columns)).
    2:{ rewrite take_ge in Hres by lia. by subst. }
    cbv zeta. rewrite Hf.
    2:{ rewrite length_take, length_drop.
        destruct (Nat.ltb_spec (length columns) (start + Comments.chunkSize));
          unfold Comments.chunkSize in *; lia. }
    apply IH; [unfold Comments.chunkSize; lia|].
    subst result. unfold restrict. apply map_eq. intros k.
    rewrite lookup_union, !map_lookup_filter.
    destruct (table !! k) as [v|] eqn:E; simpl; [|done].
    assert (Hsplit : take (start + Comments.chunkSize) columns
              = take start columns ++
                take ((if (length columns <? start + Comments.chunkSize)%nat
                       then length columns else (start + Comments.chunkSize)%nat) - start)
                     (drop start columns)).
    { destruct (Nat.ltb_spec (length columns) (start + Comments.chunkSize)).
      - rewrite (take_ge columns (start + Comments.chunkSize)) by lia.
        rewrite (take_ge (drop start columns)) by (rewrite length_drop; lia).
        by rewrite take_drop.
      - replace (start + Comments.chunkSize - start)%nat with Comments.chunkSize by lia.
        by rewrite take_take_drop. }
    rewrite Hsplit.
    repeat case_guard; simpl; try done; exfalso;
      repeat match goal with H : context [_ ∈ _ ++ _] |- _ => rewrite elem_of_app in H end;
      tauto.
Qed.


Lemma fetch_loop_keys fetch (columns : list string) :
  (forall chunk m k, fetch chunk = Done m -> is_Some (m !! k) -> k ∈ chunk) ->
  forall fuel start result fetched,
  Comments.fetch_loop fetch fuel start columns result = Some (Done fetched) ->
  forall k, is_Some (fetched !! k) -> is_Some (result !! k) \/ k ∈ columns.
Proof.
  intros Hf. induction fuel as [|fuel IH]; intros start result fetched.
  - simpl. destruct (_ <? _)%nat; [done|]. intros [= <-] k Hk. by left.
  - cbn [Comments.fetch_loop]. destruct (_ <? _)%nat.
    2:{ intros [= <-] k Hk. by left. }
    cbv zeta. destruct (fetch _) as [chunkResult|err] eqn:E; [|done].
    intros H k Hk. destruct (IH _ _ _ H k Hk) as [Hu|Hc]; [|by right].
    rewrite lookup_union_is_Some in Hu. destruct Hu as [Hu|Hu]; [|by left].
    right. apply (Hf _ _ _ E) in Hu.
    apply elem_of_take in Hu as (i & Hi & _). apply lookup_drop in Hi || idtac.
    rewrite lookup_drop in Hi. by apply list_elem_of_lookup_2 in Hi.
Qed.

Lemma cache_loop_spec (m : gmap string string) (unique : list string)
    (result : gmap string string) (toFetch : list string) :
  let found k := match m !! k with
                 | Some v => if String.eqb v "" then None else Some v
                 | None => None
                 end in
  (Comments.cache_loop m unique result toFetch).2
  = toFetch ++ List.filter (fun k => bool_decide (m !! k = None)) unique /\
  forall k, (Comments.cache_loop m unique result toFetch).1 !! k
            = if bool_decide (k ∈ unique)
              then match found k with Some v => Some v | None => result !! k end
              else result !! k.
Proof.
  intros found. revert result toFetch.
  induction unique as [|key unique IH]; intros result toFetch.
  - simpl. split; [by rewrite app_nil_r|done].
  - cbn [Comments.cache_loop List.filter].
    destruct (m !! key) as [comment|] eqn:E.
    + rewrite bool_decide_eq_false_2 by done.
      destruct (IH (if negb (String.eqb comment "") then <[key:=comment]> result else result)
                  toFetch) as [H1 H2].
      split; [exact H1|]. intros k. rewrite H2.
      destruct (decide (k = key)) as [->|Hne].
      * rewrite (bool_decide_eq_true_2 (key ∈ key :: unique)) by left.
        unfold found. rewrite E.
        destruct (String.eqb comment ""); cbn [negb].
        -- by destruct (bool_decide _).
        -- rewrite lookup_insert_eq. by destruct (bool_decide _).
      * assert (Hr : (if negb (String.eqb comment "") then <[key:=comment]> result else result) !! k
                     = result !! k).
        { destruct (negb _); [by rewrite lookup_insert_ne|done]. }
        rewrite Hr. destruct (bool_decide (k ∈ unique)) eqn:B.
        -- apply bool_decide_eq_true in B.
           by rewrite (bool_decide_eq_true_2 (k ∈ key :: unique)) by (by right).
        -- apply bool_decide_eq_false in B.
           rewrite (bool_decide_eq_false_2 (k ∈ key :: unique)); [done|].
           intros [?|?]%elem_of_cons; done.
    + rewrite bool_decide_eq_true_2 by done.
      destruct (IH result (toFetch ++ [key])) as [H1 H2].
      split; [by rewrite H1, <- app_assoc|]. intros k. rewrite H2.
      destruct (decide (k = key)) as [->|Hne].
      * rewrite (bool_decide_eq_true_2 (key ∈ key :: unique)) by left.
        unfold found. rewrite E. by destruct (bool_decide _).
      * destruct (bool_decide (k ∈ unique)) eqn:B.
        -- apply bool_decide_eq_true in B.
           by rewrite (bool_decide_eq_true_2 (k ∈ key :: unique)) by (by right).
        -- apply bool_decide_eq_false in B.
           rewrite (bool_decide_eq_false_2 (k ∈ key :: unique)); [done|].
           intros [?|?]%elem_of_cons; done.
Qed.

Lemma mark_missing_spec (fetched c : gmap string string) (l : list string) (k : string) :
  foldl (Comments.mark_missing fetched) c l !! k
  = if bool_decide (k ∈ l /\ fetched !! k = None) then Some "" else c !! k.
Proof.
  revert c. induction l as [|key l IH]; intros c.
  - cbn [foldl]. rewrite bool_decide_eq_false_2; [done|]. intros [H _]. by apply elem_of_nil in H.
  - cbn [foldl]. rewrite IH. unfold Comments.mark_missing.
    destruct (decide (k ∈ l /\ fetched !! k = None)) as [[H1 H2]|Hn].
    + rewrite !bool_decide_eq_true_2; [done| |done]. split; [by right|done].
    + rewrite (bool_decide_eq_false_2 _ Hn).
      destruct (fetched !! key) as [v|] eqn:E.
      * rewrite bool_decide_eq_false_2; [done|].
        intros [[->|Hin]%elem_of_cons Hf]; [congruence|]. by apply Hn.
      * destruct (decide (k = key)) as [->|Hne].
        -- rewrite lookup_insert_eq. rewrite bool_decide_eq_true_2; [done|].
           split; [left|done].
        -- rewrite lookup_insert_ne by done.
           rewrite bool_decide_eq_false_2; [done|].
           intros [[->|Hin]%elem_of_cons Hf]; [done|]. by apply Hn.
Qed.

Lemma cache_loop_empty (unique : list string) (result : gmap string string)
    (toFetch : list string) :
  Comments.cache_loop ∅ unique result toFetch = (result, toFetch ++ unique).
Proof.
  revert toFetch. induction unique as [|key unique IH]; intros toFetch.
  - by rewrite app_nil_r.
  - cbn [Comments.cache_loop]. rewrite lookup_empty, IH. by rewrite <- app_assoc.
Qed.

Lemma filter_nil_elem_of {A : Type} (f : A -> bool) (l : list A) :
  (forall x, x ∈ l -> f x = false) -> List.filter f l = [].
Proof.
  induction l as [|x l IH]; intros H; [done|]. simpl.
  rewrite (H x) by left. apply IH. intros y Hy. apply H. by right.
Qed.

(** X20: Once lookupColumnComments has succeeded for some columns, looking the
    same columns up again returns the same comments and leaves the cache as it
    is whatever the catalog would answer now: the catalog is not asked again,
    also not for the columns it had no comment for. The catalog is taken to
    answer only for names it was asked for. *)
Theorem comments_are_cached fetch (cache : option (gmap string string))
    (columns : list string) (r : gmap string string)
    (cache' : option (gmap string string)) :
  (forall chunk m k, fetch chunk = Done m -> is_Some (m !! k) -> k ∈ chunk) ->
  Comments.lookupColumnComments fetch cache columns = Some (r, None, cache') ->
  forall fetch',
    Comments.lookupColumnComments fetch' cache' columns = Some (r, None, cache').
Proof.
  intros Hasked Hfirst fetch'. unfold Comments.lookupColumnComments in *.
  destruct (Comments.unique_loop columns ∅) as [|u0 unique0] eqn:EU.
  { by injection Hfirst as <- <-. }
  set (U := u0 :: unique0) in *.
  set (cache0 := default ∅ cache).
  assert (Hloop : match cache with
                  | Some m => Comments.cache_loop m U ∅ []
                  | None => (∅, U)
                  end = Comments.cache_loop cache0 U ∅ []).
  { subst cache0. destruct cache; [done|]. simpl. by rewrite cache_loop_empty. }
  rewrite Hloop in Hfirst.
  destruct (cache_loop_spec cache0 U ∅ []) as [HtoFetch Hresult].
  destruct (Comments.cache_loop cache0 U ∅ []) as [result toFetch] eqn:EL.
  cbn [fst snd app] in HtoFetch, Hresult.
  destruct toFetch as [|t0 toFetch0] eqn:ET.
  { injection Hfirst as <- <-. subst cache0.
    destruct cache as [m|]; simpl in *.
    - rewrite EL. done.
    - rewrite cache_loop_empty in EL. by injection EL. }
  rewrite <- ET in *. clear ET.
  destruct (Comments.fetchColumnComments fetch toFetch) as [[fetched|err]|] eqn:EF;
    [|done|done].
  injection Hfirst as <- <-.
  assert (Hkeys : forall k, is_Some (fetched !! k) -> k ∈ toFetch).
  { intros k Hk. unfold Comments.fetchColumnComments in EF.
    destruct (fetch_loop_keys fetch toFetch Hasked _ _ _ _ EF k Hk) as [H|H]; [|done].
    rewrite lookup_empty in H. by destruct H. }
  assert (Hin : forall k, k ∈ toFetch <-> k ∈ U /\ cache0 !! k = None).
  { intros k. rewrite HtoFetch, list_elem_of_In, filter_In, <- list_elem_of_In.
    by rewrite bool_decide_eq_true. }
  set (cache2 := foldl (Comments.mark_missing fetched) (fetched ∪ cache0) toFetch).
  assert (Hc2 : forall k, cache2 !! k
                          = if bool_decide (k ∈ toFetch /\ fetched !! k = None)
                            then Some "" else (fetched ∪ cache0) !! k).
  { intros k. apply mark_missing_spec. }
  destruct (cache_loop_spec cache2 U ∅ []) as [HtoFetch2 Hresult2].
  destruct (Comments.cache_loop cache2 U ∅ []) as [result2 toFetch2] eqn:EL2.
  cbn [fst snd app] in HtoFetch2, Hresult2.
  assert (toFetch2 = []) as ->.
  { rewrite HtoFetch2. apply filter_nil_elem_of. intros k Hk.
    apply bool_decide_eq_false. rewrite Hc2.
    destruct (bool_decide _) eqn:B; [done|]. apply bool_decide_eq_false in B.
    rewrite lookup_union. destruct (fetched !! k) eqn:Ef; [by destruct (cache0 !! k)|].
    destruct (cache0 !! k) eqn:Ec; [done|]. exfalso. apply B. split; [|done].
    by apply Hin. }
  assert (result2 = filter (fun kv => kv.2 <> "") fetched ∪ result) as ->.
  2:{ fold cache0. fold cache2. by rewrite EL2. }
  apply map_eq. intros k. rewrite Hresult2, lookup_union, map_lookup_filter, Hresult.
  rewrite !lookup_empty, Hc2, lookup_union.
  destruct (fetched !! k) as [v|] eqn:Ef.
  - assert (Hk : k ∈ toFetch) by (apply Hkeys; by rewrite Ef).
    apply Hin in Hk as [HkU Hk0]. rewrite (bool_decide_eq_true_2 _ HkU), Hk0.
    rewrite bool_decide_eq_false_2 by (intros [_ ?]; done).
    simpl. destruct (String.eqb_spec v "") as [->|Hv].
    + by case_guard.
    + by case_guard.
  - simpl. destruct (bool_decide (k ∈ U)) eqn:BU; [|done].
    apply bool_decide_eq_true in BU.
    destruct (cache0 !! k) as [v|] eqn:Ec.
    + rewrite bool_decide_eq_false_2; [simpl; by destruct (String.eqb v "")|].
      intros [Hk _]. apply Hin in Hk as [_ ?]. congruence.
    + rewrite bool_decide_eq_true_2; [done|]. split; [|done]. by apply Hin.
Qed.

(** X21: Asking the catalog in chunks is transparent: when the catalog answers
    every IN list of 1 to 900 names with the comments it holds for these
    names, fetchColumnComments returns the comments it holds for all the
    columns, however many they are; no longer list is ever sent. *)
Theorem fetchColumnComments_chunking fetch (table : gmap string string)
    (columns : list string) :
  (forall chunk, (0 < length chunk <= Comments.chunkSize)%nat ->
                 fetch chunk = Done (restrict table chunk)) ->
  Comments.fetchColumnComments fetch columns
  = Some (Done (restrict table columns)).
Proof.
  intros Hf. unfold Comments.fetchColumnComments.
  apply (fetch_loop_spec fetch table columns Hf); [lia|].
  unfold restrict. apply map_eq. intros k.
  rewrite lookup_empty. symmetry. apply map_lookup_filter_None. right.
  intros v _ Hin. cbn [fst take] in Hin. by apply elem_of_nil in Hin.
Qed.

(** X21 (witness): fetchColumnComments_chunking at a catalog with one comment. *)
Lemma fetchColumnComments_chunking_witness :
  let table : gmap string string := {[ "ID" := "identifier" ]} in
  Comments.fetchColumnComments (fun chunk => Done (restrict table chunk)) ["ID"; "NAME"]
  = Some (Done (restrict table ["ID"; "NAME"])).
Proof.
  intros table.
  apply (fetchColumnComments_chunking (fun chunk => Done (restrict table chunk)) table).
  reflexivity.
Defined.

Lemma restrict_answers_asked (table : gmap string string) (chunk : list string)
    (m : gmap string string) (k : string) :
  Done (restrict table chunk) = Done m -> is_Some (m !! k) -> k ∈ chunk.
Proof.
  intros [= <-] [v Hv]. unfold restrict in Hv.
  by apply map_lookup_filter_Some in Hv as [_ Hv].
Qed.

Lemma first_lookup_fills_cache :
  Comments.lookupColumnComments
    (fun chunk => Done (restrict {[ "ID" := "identifier" ]} chunk)) None
    ["id"; " Name "]
  = Some ({[ "ID" := "identifier" ]}, None,
          Some (<[ "NAME" := "" ]> {[ "ID" := "identifier" ]})).
Proof. vm_compute. reflexivity. Qed.

(** X20 (witness): comments_are_cached at a first lookup that fills the empty
    cache and a second one while the catalog is down. *)
Lemma comments_are_cached_witness :
  Comments.lookupColumnComments (fun _ => Failed "catalog down")
    (Some (<[ "NAME" := "" ]> {[ "ID" := "identifier" ]})) ["id"; " Name "]
  = Some ({[ "ID" := "identifier" ]}, None,
          Some (<[ "NAME" := "" ]> {[ "ID" := "identifier" ]})).
Proof.
  exact (comments_are_cached _ None ["id"; " Name "] _ _
           (restrict_answers_asked {[ "ID" := "identifier" ]})
           first_lookup_fills_cache _).
Defined.

(** ** ExplainSQL and the failures of the engine *)



(** ** The budget of the schema context *)

Lemma tables_loop_budget (c : Schema.Client) (ctx_Err : nat -> bool) (i : nat)
    (tables : list string) (st : Schema.loop_state) :
  let st' := Schema.tables_loop c ctx_Err i tables st in
  0 <= Schema.successCount st <= 10 ->
  Schema.successCount st <= Schema.attemptCount st ->
  (2 <= Schema.successCount st -> Schema.attemptCount st <= 40) ->
  0 <= Schema.successCount st' <= 10 /\
  Schema.successCount st' <= Schema.attemptCount st' /\
  Schema.attemptCount st' <= Schema.attemptCount st + Z.of_nat (length tables) /\
  (2 <= Schema.successCount st' -> Schema.attemptCount st' <= 40).
Proof.
  revert i st. induction tables as [|table tables IH]; intros i st; cbv zeta.
  - simpl. lia.
  - intros H1 H2 H3. cbn [Schema.tables_loop]. unfold Schema.maxAttempts, Schema.maxTables.
    destruct (ctx_Err i); [simpl length; lia|].
    destruct (Z.leb_spec 40 (Schema.attemptCount st));
      destruct (Z.ltb_spec 0 (Schema.successCount st)); cbn [andb];
      try (simpl length; lia);
      (destruct (Z.leb_spec 10 (Schema.successCount st));
       [cbn [Schema.successCount Schema.attemptCount]; simpl length; lia|]);
      (destruct (Schema.GetTableSchema c table) as [schema|err];
       match goal with |- context [ Schema.tables_loop c ctx_Err (S i) tables ?s ] =>
         specialize (IH (S i) s); cbv zeta in IH;
         cbn [Schema.successCount Schema.attemptCount] in IH;
         simpl length; lia
       end).
Qed.

Lemma tables_loop_all_fail (c : Schema.Client) (ctx_Err : nat -> bool) (i : nat)
    (tables : list string) (st : Schema.loop_state) :
  (forall j, ctx_Err j = false) ->
  (forall table, table ∈ tables ->
     exists err, Schema.GetTableSchema c table = Failed err) ->
  Schema.successCount st = 0 ->
  let st' := Schema.tables_loop c ctx_Err i tables st in
  Schema.successCount st' = 0 /\
  Schema.attemptCount st' = Schema.attemptCount st + Z.of_nat (length tables).
Proof.
  intros Hctx. revert i st. induction tables as [|table tables IH];
    intros i st Hfail Hs; cbv zeta.
  - simpl. lia.
  - cbn [Schema.tables_loop]. rewrite Hctx, Hs.
    unfold Schema.maxTables. cbn [Z.ltb Z.leb Z.compare andb].
    rewrite andb_false_r.
    destruct (Hfail table) as [err ->]; [by left|].
    match goal with |- context [ Schema.tables_loop c ctx_Err (S i) tables ?s ] =>
      pose proof (IH (S i) s) as IH'
    end.
    cbv zeta in IH'. destruct IH' as [-> ->];
      [by intros t Ht; apply Hfail; right|done|].
    cbn [Schema.attemptCount]. simpl length. lia.
Qed.

(** X23: The schema context describes at most 10 tables; it asks for metadata
    no more often than the list has tables, and once two tables have been
    described it has asked at most 40 times. There is no such limit while no
    table can be described: when the metadata of every table is refused and
    the context is not cancelled, every table of the list is asked for. *)
Theorem schema_context_budget (c : Schema.Client) (ctx_Err : nat -> bool)
    (tableNames : string) (r : Schema.Context) :
  Schema.getDatabaseSchemaContext c ctx_Err tableNames = Done r ->
  (0 <= Schema.tables_included r <= 10 /\
   Schema.tables_included r <= Schema.tables_attempted r
     <= Schema.tables_requested r /\
   (2 <= Schema.tables_included r -> Schema.tables_attempted r <= 40)) /\
  ((forall j, ctx_Err j = false) ->
   (forall table, exists err, Schema.GetTableSchema c table = Failed err) ->
   Schema.tables_included r = 0 /\
   Schema.tables_attempted r = Schema.tables_requested r).
Proof.
  unfold Schema.getDatabaseSchemaContext. cbv zeta.
  destruct (match Schema.target_tables tableNames with
            | [] => Schema.GetAllTables c
            | _ :: _ => Done (Schema.target_tables tableNames)
            end) as [[|t0 targets]|err]; [| |done].
  { intros [= <-]. cbn [Schema.tables_included Schema.tables_attempted
                         Schema.tables_requested]. split; [lia|]. intros; lia. }
  match goal with |- context [ Schema.tables_loop c ctx_Err ?i ?l ?s ] =>
    pose proof (tables_loop_budget c ctx_Err i l s) as Hbudget;
    pose proof (tables_loop_all_fail c ctx_Err i l s) as Hfails;
    cbv zeta in Hbudget, Hfails;
    cbn [Schema.successCount Schema.attemptCount] in Hbudget, Hfails;
    generalize dependent (Schema.tables_loop c ctx_Err i l s)
  end.
  intros st' Hbudget Hfails [= <-].
  cbn [Schema.tables_included Schema.tables_attempted Schema.tables_requested].
  split.
  - cbn [length] in Hbudget. destruct Hbudget as (H1 & H2 & H3 & H4); lia.
  - intros Hctx Hfail. cbn [length] in Hfails.
    destruct Hfails as [-> ->]; try done; try lia.
Qed.

(** X23 (witness): schema_context_budget at a schema of three tables whose
    metadata is refused. *)
Lemma schema_context_budget_witness :
  let c := {| Schema.GetAllTables := Done ["ORDERS"; "ITEMS"; "USERS"];
              Schema.GetTableSchema := fun _ => Failed "ORA-00942" |} in
  exists r,
    Schema.getDatabaseSchemaContext c (fun _ => false) "" = Done r /\
    Schema.tables_included r = 0 /\
    Schema.tables_attempted r = Schema.tables_requested r /\
    Schema.tables_requested r = 3.
Proof.
  intros c. eexists. split; [reflexivity|].
  split; [|split].
  - apply (schema_context_budget c (fun _ => false) "" _ eq_refl); [done|].
    intros table. by eexists.
  - apply (schema_context_budget c (fun _ => false) "" _ eq_refl); [done|].
    intros table. by eexists.
  - reflexivity.
Defined.

(** ** The sensitive columns read from the environment *)







(** ** The template short circuit over the WebSocket *)






(** ** FormatSQL *)















